(** * LOOT platform helpers (src/gui/helpers.cpp): a shallow embedding

    The C++ helpers of LOOT's GUI layer are embedded as Rocq functions:
    - [std::string] is [string] (a sequence of 8-bit [ascii] code units);
    - [std::wstring] / [std::u16string] is [list Z], one 16-bit unit per entry;
    - fixed-width integers are [Z] with the wrap-around written out;
    - a call that may throw, or that dereferences the logger pointer, runs in
      the monad [M] below, which threads the diagnostics sink;
    - operating-system and library services (Win32 registry, ICU, the file
      system, the process environment) are interfaces whose behaviour is a
      parameter of every theorem, with small executable instances used to run
      the functions on concrete inputs. *)

From Stdlib Require Import ZArith Lia Ascii.
From stdpp Require Import base option list strings gmap.

Local Open Scope Z_scope.

(** * Part I: the embedding *)

(** ** Outcomes of a call *)

(** The exception classes the helpers throw. *)
Inductive exception : Type :=
| invalid_argument (what : string)
| runtime_error (what : string)
| system_error (code : Z) (what : string)
| filesystem_error (what : string)
| ios_failure (what : string)
| out_of_range (what : string).

(** [e.what()].  An exception the code builds with [std::system_error(code,
    category, message)] carries the code and the message; its [what()] is the
    message, [": "] and the category's text for the code, which the system
    supplies ([system_message]).  The other classes carry their [what()]. *)
Definition what_of (system_message : Z -> string) (e : exception) : string :=
  match e with
  | system_error code w => w +:+ ": " +:+ system_message code
  | invalid_argument w | runtime_error w
  | filesystem_error w | ios_failure w | out_of_range w => w
  end.

(** What a call does: it returns, it throws, it dereferences a null
    [std::shared_ptr<logger>] (undefined behaviour: no result is defined), the
    model's loop budget ran out before the C++ loop ended, or a system call
    stored more than the buffer it was given holds (undefined behaviour
    again). *)
Inductive outcome (A : Type) : Type :=
| Returns (a : A)
| Throws (e : exception)
| NullDeref
| OutOfFuel
| BufferOverrun.
Arguments Returns {A} a.
Arguments Throws {A} e.
Arguments NullDeref {A}.
Arguments OutOfFuel {A}.
Arguments BufferOverrun {A}.

(** ** The diagnostics sink *)

Inductive level : Type := lvl_trace | lvl_debug | lvl_info | lvl_warn | lvl_error.

(** [getLogger()] yields a possibly-null pointer; a present logger is modelled
    by the list of messages it has received so far. *)
Definition sink : Type := option (list (level * string)).

Definition M (A : Type) : Type := sink -> outcome A * sink.

Definition mret {A} (a : A) : M A := fun s => (Returns a, s).

Definition mthrow {A} (e : exception) : M A := fun s => (Throws e, s).

Definition bind {A B} (m : M A) (k : A -> M B) : M B :=
  fun s =>
    match m s with
    | (Returns a, s') => k a s'
    | (Throws e, s') => (Throws e, s')
    | (NullDeref, s') => (NullDeref, s')
    | (OutOfFuel, s') => (OutOfFuel, s')
    | (BufferOverrun, s') => (BufferOverrun, s')
    end.

Notation "x <- m ;; k" := (bind m (fun x => k))
  (at level 100, m at next level, right associativity).
Notation "m ;;; k" := (bind m (fun _ => k))
  (at level 100, right associativity).

(** [if (logger) { logger->lvl(msg); }] *)
Definition log_if_present (lvl : level) (msg : string) : M unit :=
  fun s =>
    match s with
    | Some l => (Returns tt, Some (l ++ [(lvl, msg)]))
    | None => (Returns tt, None)
    end.

(** [if (logger) { body }], for a body that does more than emit. *)
Definition if_logger (body : M unit) : M unit :=
  fun s =>
    match s with
    | Some _ => body s
    | None => (Returns tt, None)
    end.

(** [logger->lvl(msg);] with no check of the pointer. *)
Definition log_unchecked (lvl : level) (msg : string) : M unit :=
  fun s =>
    match s with
    | Some l => (Returns tt, Some (l ++ [(lvl, msg)]))
    | None => (NullDeref, None)
    end.

(** [try { body } catch (const std::exception& e) { handler }]: every class of
    [exception] derives from [std::exception]; nothing else is caught. *)
Definition try_catch {A} (body : M A) (handler : exception -> M A) : M A :=
  fun s =>
    match body s with
    | (Throws e, s') => handler e s'
    | r => r
    end.

(** A library or system call that either yields a value or throws. *)
Definition lift_call {A} (r : exception + A) : M A :=
  match r with
  | inl e => mthrow e
  | inr a => mret a
  end.

(** The result of running a call from a given sink, the sink put aside. *)
Definition result {A} (m : M A) (s : sink) : outcome A := fst (m s).

(** The double-quote character, for messages that quote a path. *)
Definition dq : string := String (ascii_of_nat 34) EmptyString.

(** ** Number formatting *)

Definition hex_digit (upper : bool) (d : Z) : ascii :=
  if d <? 10 then ascii_of_nat (Z.to_nat (48 + d))
  else ascii_of_nat (Z.to_nat ((if upper then 55 else 87) + d)).

(** The hexadecimal digits of a non-negative number, most significant first,
    with no leading zero (a single digit for 0): what [%X] / [std::hex]
    print before padding.  [fuel] bounds the number of digits. *)
Fixpoint hex_digits (fuel : nat) (upper : bool) (n : Z) : string :=
  match fuel with
  | O => EmptyString
  | S f =>
      if n <? 16 then String (hex_digit upper n) EmptyString
      else hex_digits f upper (n / 16) +:+ String (hex_digit upper (n mod 16)) EmptyString
  end.

Fixpoint replicate_char (n : nat) (c : ascii) : string :=
  match n with
  | O => EmptyString
  | S k => String c (replicate_char k c)
  end.

(** The flag [0] with a field width: pad on the left with zeros up to
    [width] characters; a longer text is left as it is. *)
Definition pad_zero (width : nat) (s : string) : string :=
  replicate_char (width - String.length s) "0"%char +:+ s.

(** [boost::format("%08X") % crc] for a [uint32_t] argument. *)
Definition format_08X (crc : Z) : string :=
  pad_zero 8 (hex_digits 8 true crc).

(** [std::string crcToString(uint32_t crc)] *)
Definition crcToString (crc : Z) : string := format_08X (crc mod 2 ^ 32).

(** Reading a hexadecimal text back (used to state what the text denotes). *)
Definition hex_value_of_char (c : ascii) : option Z :=
  let n := Z.of_nat (nat_of_ascii c) in
  if (48 <=? n) && (n <=? 57) then Some (n - 48)
  else if (65 <=? n) && (n <=? 70) then Some (n - 55)
  else None.

Fixpoint hex_value_acc (acc : Z) (s : string) : option Z :=
  match s with
  | EmptyString => Some acc
  | String c r =>
      match hex_value_of_char c with
      | Some d => hex_value_acc (16 * acc + d) r
      | None => None
      end
  end.

Definition hex_value (s : string) : option Z := hex_value_acc 0 s.


(** The decimal digits of a non-negative number, as [{}] prints a [size_t]. *)
Fixpoint dec_digits (fuel : nat) (n : Z) : string :=
  match fuel with
  | O => EmptyString
  | S f =>
      if n <? 10 then String (hex_digit false n) EmptyString
      else dec_digits f (n / 10) +:+ String (hex_digit false (n mod 10)) EmptyString
  end.

Definition to_decimal (n : Z) : string := dec_digits 20 n.

(** [boost::join(parts, sep)] *)
Fixpoint join (sep : string) (parts : list string) : string :=
  match parts with
  | [] => EmptyString
  | [p] => p
  | p :: rest => p +:+ sep +:+ join sep rest
  end.

(** ** Narrow and wide strings *)

Definition octet_of_ascii (c : ascii) : Z := Z.of_nat (nat_of_ascii c).
Definition ascii_of_octet (o : Z) : ascii := ascii_of_nat (Z.to_nat (o mod 256)).

Fixpoint octets_of_string (s : string) : list Z :=
  match s with
  | EmptyString => []
  | String c r => octet_of_ascii c :: octets_of_string r
  end.

Fixpoint string_of_octets (l : list Z) : string :=
  match l with
  | [] => EmptyString
  | o :: r => String (ascii_of_octet o) (string_of_octets r)
  end.

(** [w.c_str()] read as a null-terminated string: the units before the first
    zero unit. *)
Fixpoint c_str (w : list Z) : list Z :=
  match w with
  | [] => []
  | u :: r => if u =? 0 then [] else u :: c_str r
  end.

(** *** An executable stand-in for the platform's UTF-8 / UTF-16 conversions

    The conversions themselves belong to the operating system and to ICU;
    they are parameters of the model.  The functions below are one instance,
    used to run the helpers on concrete inputs: well-formed input is
    converted exactly, each ill-formed code unit is replaced by U+FFFD. *)

Definition REPLACEMENT : Z := 65533.

Definition is_cont (b : Z) : bool := (128 <=? b) && (b <=? 191).

Definition in_range (lo hi b : Z) : bool := (lo <=? b) && (b <=? hi).

(** One step of UTF-8 decoding (Unicode 15, table 3-7): the scalar value read
    and the number of octets it took, or [None] at an ill-formed sequence. *)
Definition utf8_step (l : list Z) : option (Z * nat) :=
  match l with
  | [] => None
  | b0 :: r =>
      if b0 <? 128 then Some (b0, 1%nat)
      else
        match r with
        | [] => None
        | b1 :: r1 =>
            if in_range 194 223 b0 then
              if is_cont b1 then Some ((b0 - 192) * 64 + (b1 - 128), 2%nat) else None
            else
              match r1 with
              | [] => None
              | b2 :: r2 =>
                  if in_range 224 239 b0 then
                    if in_range (if b0 =? 224 then 160 else 128)
                                (if b0 =? 237 then 159 else 191) b1 && is_cont b2
                    then Some ((b0 - 224) * 4096 + (b1 - 128) * 64 + (b2 - 128), 3%nat)
                    else None
                  else
                    match r2 with
                    | [] => None
                    | b3 :: _ =>
                        if in_range 240 244 b0
                           && in_range (if b0 =? 240 then 144 else 128)
                                       (if b0 =? 244 then 143 else 191) b1
                           && is_cont b2 && is_cont b3
                        then Some ((b0 - 240) * 262144 + (b1 - 128) * 4096
                                   + (b2 - 128) * 64 + (b3 - 128), 4%nat)
                        else None
                    end
              end
        end
  end.

Fixpoint utf8_decode_fuel (fuel : nat) (l : list Z) : list (option Z) :=
  match fuel with
  | O => []
  | S f =>
      match l with
      | [] => []
      | _ :: r =>
          match utf8_step l with
          | Some (cp, n) => Some cp :: utf8_decode_fuel f (drop n l)
          | None => None :: utf8_decode_fuel f r
          end
      end
  end.

(** Scalar values of a UTF-8 text; [None] marks an ill-formed octet. *)
Definition utf8_decode (s : string) : list (option Z) :=
  let l := octets_of_string s in utf8_decode_fuel (length l) l.

(** Whether a narrow string is well-formed UTF-8. *)
Definition utf8_valid (s : string) : bool :=
  forallb (fun o => match o with Some _ => true | None => false end) (utf8_decode s).

Definition utf16_encode_scalar (cp : Z) : list Z :=
  if cp <? 65536 then [cp]
  else [55296 + (cp - 65536) / 1024; 56320 + (cp - 65536) mod 1024].

Definition utf8_encode_scalar (cp : Z) : list Z :=
  if cp <? 128 then [cp]
  else if cp <? 2048 then [192 + cp / 64; 128 + cp mod 64]
  else if cp <? 65536 then [224 + cp / 4096; 128 + (cp / 64) mod 64; 128 + cp mod 64]
  else [240 + cp / 262144; 128 + (cp / 4096) mod 64; 128 + (cp / 64) mod 64; 128 + cp mod 64].

(** Scalar values of a UTF-16 text; a lone surrogate becomes U+FFFD. *)
Fixpoint utf16_decode (w : list Z) : list Z :=
  match w with
  | [] => []
  | u :: r =>
      if in_range 55296 56319 u then
        match r with
        | v :: r' =>
            if in_range 56320 57343 v
            then (65536 + (u - 55296) * 1024 + (v - 56320)) :: utf16_decode r'
            else REPLACEMENT :: utf16_decode r
        | [] => [REPLACEMENT]
        end
      else if in_range 56320 57343 u then REPLACEMENT :: utf16_decode r
      else u :: utf16_decode r
  end.

(** Whether a sequence of units is well-formed UTF-16: every unit is a
    16-bit value and every surrogate is half of a pair. *)
Fixpoint utf16_well_formed (w : list Z) : bool :=
  match w with
  | [] => true
  | u :: r =>
      if in_range 55296 56319 u then
        match r with
        | v :: r' => in_range 56320 57343 v && utf16_well_formed r'
        | [] => false
        end
      else in_range 0 55295 u && utf16_well_formed r
           || in_range 57344 65535 u && utf16_well_formed r
  end.

(** UTF-8 to UTF-16, as [MultiByteToWideChar(CP_UTF8, 0, ...)] and
    [icu::UnicodeString::fromUTF8] do it: never failing. *)
Definition widen (s : string) : list Z :=
  concat (map (fun o => utf16_encode_scalar (default REPLACEMENT o)) (utf8_decode s)).

(** UTF-16 to UTF-8, as [WideCharToMultiByte(CP_UTF8, 0, ...)] does it. *)
Definition narrow (w : list Z) : string :=
  string_of_octets (concat (map utf8_encode_scalar (utf16_decode w))).

(** ** std::filesystem::path *)

(** The operations of [std::filesystem::path] the helpers use.  Their
    behaviour depends on the platform (separator, native encoding), so the
    helpers are written against this interface. *)
Class PathOps : Type := {
  path : Type;
  (** [std::filesystem::u8path(s)], and [path] built from a narrow string *)
  u8path : string -> path;
  (** The path whose text is the given units, taken as they are:
      [path(const std::wstring&)] where the wide form is the native one *)
  path_of_u16string : list Z -> path;
  (** [path(const std::u16string&)], also as the implicit conversion of the
      right operand of [/]: the units are converted to the native form, and
      where that form is narrow ill-formed text throws *)
  convert_u16string : list Z -> exception + path;
  (** [lhs / rhs] *)
  path_append : path -> path -> path;
  (** [p.u8string()] for the root the caller gives and the paths made from
      it by appending a file name: their text is taken to have a UTF-8 form *)
  u8string : path -> string;
  (** [p.u8string()] for a path built from the content of a file: where the
      native form is wide and the text ill-formed, the conversion throws *)
  u8string_checked : path -> exception + string;
  (** [p.parent_path()] *)
  parent_path : path -> path;
  (** [p.empty()] *)
  path_is_empty : path -> bool
}.

Notation "p </> q" := (path_append p q) (at level 40, left associativity).

(** *** The POSIX instance: a path is its UTF-8 text, the separator is [/]. *)

Definition slash : ascii := ascii_of_nat 47.

Definition string_is_empty (s : string) : bool :=
  match s with EmptyString => true | String _ _ => false end.

Definition starts_with_slash (s : string) : bool :=
  match s with
  | String c _ => Ascii.eqb c slash
  | EmptyString => false
  end.

Fixpoint ends_with_slash (s : string) : bool :=
  match s with
  | EmptyString => false
  | String c EmptyString => Ascii.eqb c slash
  | String _ r => ends_with_slash r
  end.

(** [operator/] (C++17 [fs.path.append]): an absolute right operand replaces
    the left one; otherwise a separator is added unless the left operand is
    empty or already ends with one. *)
Definition posix_append (p q : string) : string :=
  if starts_with_slash q then q
  else if string_is_empty p || ends_with_slash p then p +:+ q
  else p +:+ String slash q.

Fixpoint string_rev_acc (s acc : string) : string :=
  match s with
  | EmptyString => acc
  | String c r => string_rev_acc r (String c acc)
  end.

Definition string_rev (s : string) : string := string_rev_acc s EmptyString.

Fixpoint drop_while (keep_dropping : ascii -> bool) (s : string) : string :=
  match s with
  | EmptyString => EmptyString
  | String c r => if keep_dropping c then drop_while keep_dropping r else s
  end.

(** [parent_path()]: the path without its last element and the separators
    before it; the root directory is its own parent. *)
Definition posix_parent (p : string) : string :=
  let without_filename := drop_while (fun c => negb (Ascii.eqb c slash)) (string_rev p) in
  let without_separators := drop_while (fun c => Ascii.eqb c slash) without_filename in
  if string_is_empty without_separators && starts_with_slash p
  then String slash EmptyString
  else string_rev without_separators.

#[export] Instance posix_paths : PathOps := {|
  path := string;
  u8path := fun s => s;
  path_of_u16string := narrow;
  convert_u16string := fun w =>
    if utf16_well_formed w then inr (narrow w)
    else inl (filesystem_error
                "filesystem error: Cannot convert character sequence: Invalid or incomplete multibyte or wide character");
  path_append := posix_append;
  u8string := fun p => p;
  u8string_checked := fun p => inr p;
  parent_path := posix_parent;
  path_is_empty := string_is_empty
|}.

(** ** The file system as the marker parser sees it *)

(** What [std::copy(std::istreambuf_iterator<char>(in), {}, back_inserter)]
    obtains from an [std::ifstream] opened on a path.  The stream is built
    with the default exception mask, so a failed open only sets [failbit]:
    the iterator is at its end at once and nothing is copied.  A read error
    ends the copy at the octets obtained so far, silently or (where the
    stream buffer reports it so) by an exception. *)
Inductive stream_read : Type :=
| OpenFailed
| ReadToEnd (octets : list Z)
| ReadFailed (octets_before : list Z)
| ReadThrew (octets_before : list Z) (what : string).

Record Disk `{PathOps} : Type := {
  (** [std::filesystem::is_regular_file(p)], the throwing overload *)
  is_regular_file : path -> exception + bool;
  ifstream_copy : path -> stream_read;
  (** [std::system_category().message(code)] *)
  system_message : Z -> string
}.

(** The octets that reached the vector, or the exception that ended the copy. *)
Definition copied (r : stream_read) : exception + list Z :=
  match r with
  | OpenFailed => inr []
  | ReadToEnd octets => inr octets
  | ReadFailed octets => inr octets
  | ReadThrew _ what => inl (ios_failure what)
  end.

(** ** FindXboxGamingRootPath *)

(** The value of a [char] holding the octet [o]: [char] is signed on the
    x86 and x64 targets LOOT is built for (MSVC, GCC, Clang) and unsigned on
    some others; the choice is a parameter. *)
Definition char_of_octet (char_is_signed : bool) (o : Z) : Z :=
  if char_is_signed && (128 <=? o) then o - 256 else o.

(** Conversion of an integer to [char16_t]. *)
Definition to_char16 (v : Z) : Z := v mod 65536.

Definition CHAR_BIT : Z := 8.

(** The body of the decoding loop:
    [char16_t highByte = bytes.at(i); char16_t lowByte = bytes.at(i + 1);
     char16_t value = highByte | (lowByte << CHAR_BIT);]
    Both operands of [|] are promoted to [int]; the result is converted back
    to [char16_t]. *)
Definition char16_value (byte_i byte_i1 : Z) : Z :=
  let highByte := to_char16 byte_i in
  let lowByte := to_char16 byte_i1 in
  to_char16 (Z.lor highByte (Z.shiftl lowByte CHAR_BIT)).

(** [for (size_t i = 0; i < bytes.size(); i += 2) content.push_back(...)];
    [bytes.at(i + 1)] throws [std::out_of_range] past the end. *)
Fixpoint decode_content (bytes : list Z) : exception + list Z :=
  match bytes with
  | [] => inr []
  | [_] => inl (out_of_range "vector::at")
  | b0 :: b1 :: rest =>
      match decode_content rest with
      | inr content => inr (char16_value b0 b1 :: content)
      | inl e => inl e
      end
  end.

Definition CHAR16_PATH_OFFSET : Z := 4.

(** [std::u16string relativePath(content.begin() + CHAR16_PATH_OFFSET,
    content.end() - 1)] *)
Definition relative_path_units (content : list Z) : list Z :=
  take (length content - Z.to_nat CHAR16_PATH_OFFSET - 1)
       (drop (Z.to_nat CHAR16_PATH_OFFSET) content).

(** [stream << "0x" << std::hex << int{byte}]: a negative [int] prints as its
    32-bit two's complement. *)
Definition hex_of_char (byte : Z) : string :=
  "0x" +:+ hex_digits 8 false (byte mod 2 ^ 32).

Section FindXbox.
Context `{PathOps}.
Variable char_is_signed : bool.
Variable disk : Disk.

Definition gamingRootFilePath_of (driveRootPath : path) : path :=
  driveRootPath </> u8path ".GamingRoot".

Definition odd_length_message (gamingRootFilePath : path) : string :=
  "Found a non-even number of bytes in the file at " +:+ dq +:+
  u8string gamingRootFilePath +:+ dq.

Definition too_short_message (gamingRootFilePath : path) : string :=
  "The file at " +:+ dq +:+ u8string gamingRootFilePath +:+ dq +:+
  " is shorter than expected.".

(** The [try] block: [None] is its [return std::nullopt], [Some bytes] is
    falling out of the block with the vector filled. *)
Definition read_marker (gamingRootFilePath : path) : M (option (list Z)) :=
  try_catch
    (regular <- lift_call (is_regular_file disk gamingRootFilePath) ;;
     if negb regular then mret None
     else
       octets <- lift_call (copied (ifstream_copy disk gamingRootFilePath)) ;;
       mret (Some (map (char_of_octet char_is_signed) octets)))
    (fun e =>
       log_if_present lvl_error
         ("Failed to read file at " +:+ u8string gamingRootFilePath +:+ ": " +:+
          what_of (system_message disk) e) ;;;
       mret None).

(** The end of the function, from the construction of [relativePath] on:
    with a logger, [std::filesystem::path(relativePath).u8string()] is
    logged; then [driveRootPath / relativePath] is returned, the right
    operand converted to a path.  Either conversion can throw. *)
Definition join_relative_path (driveRootPath : path) (relativePath : list Z)
    : M (option path) :=
  if_logger
    (shown <- lift_call (convert_u16string relativePath) ;;
     text <- lift_call (u8string_checked shown) ;;
     log_if_present lvl_debug
       ("Read the following relative path from .GamingRoot: " +:+ text)) ;;;
  converted <- lift_call (convert_u16string relativePath) ;;
  mret (Some (driveRootPath </> converted)).

(** Everything after the [try] block. *)
Definition parse_marker (driveRootPath gamingRootFilePath : path)
    (bytes : list Z) : M (option path) :=
  log_if_present lvl_debug
    ("Read the following bytes from " +:+ u8string gamingRootFilePath +:+ ": " +:+
     join " " (map hex_of_char bytes)) ;;;
  if negb (Z.of_nat (length bytes) mod 2 =? 0) then
    log_unchecked lvl_error
      ("Found a non-even number of bytes in the file at " +:+
       u8string gamingRootFilePath +:+ ", cannot interpret it as UTF-16LE") ;;;
    mthrow (runtime_error (odd_length_message gamingRootFilePath))
  else
    content <- lift_call (decode_content bytes) ;;
    if Z.of_nat (length content) <? CHAR16_PATH_OFFSET + 1 then
      log_if_present lvl_error
        (".GamingRoot content was unexpectedly short at " +:+
         to_decimal (Z.of_nat (length content)) +:+ " char16_t long") ;;;
      mthrow (runtime_error (too_short_message gamingRootFilePath))
    else
      let relativePath := relative_path_units content in
      join_relative_path driveRootPath relativePath.

(** [std::optional<std::filesystem::path>
     FindXboxGamingRootPath(const std::filesystem::path& driveRootPath)] *)
Definition FindXboxGamingRootPath (driveRootPath : path) : M (option path) :=
  let gamingRootFilePath := gamingRootFilePath_of driveRootPath in
  read <- read_marker gamingRootFilePath ;;
  match read with
  | None => mret None
  | Some bytes => parse_marker driveRootPath gamingRootFilePath bytes
  end.
End FindXbox.

(** The marker format as the comment above the parsing code gives it: the
    octets 52 47 42 58 01 00 00 00, then the location in UTF-16LE (each unit
    as its low octet followed by its high octet), then one null unit. *)
Definition GAMING_ROOT_HEADER : list Z := [82; 71; 66; 88; 1; 0; 0; 0].

Fixpoint utf16le_octets (units : list Z) : list Z :=
  match units with
  | [] => []
  | u :: r => (u mod 256) :: (u / 256) :: utf16le_octets r
  end.

Definition marker_octets (header : list Z) (relativePath : list Z) : list Z :=
  header ++ utf16le_octets relativePath ++ [0; 0].

(** A disk with one regular file. *)
Definition disk_with_file (file : string) (content : stream_read) : @Disk posix_paths := {|
  is_regular_file := fun p => inr (String.eqb p file);
  ifstream_copy := fun p => if String.eqb p file then content else OpenFailed;
  system_message := fun _ => "Input/output error"
|}.

(** ** The Win32 services the helpers call *)

Definition ERROR_SUCCESS : Z := 0.
Definition ERROR_FILE_NOT_FOUND : Z := 2.
Definition ERROR_ACCESS_DENIED : Z := 5.
Definition ERROR_MORE_DATA : Z := 234.
Definition ERROR_NO_MORE_ITEMS : Z := 259.
Definition MAX_PATH : Z := 260.
Definition RRF_RT_REG_SZ : Z := 2.
Definition RRF_SUBKEY_WOW6464KEY : Z := 65536.
Definition RRF_SUBKEY_WOW6432KEY : Z := 131072.
Definition KEY_ENUMERATE_SUB_KEYS : Z := 8.
Definition CSTR_LESS_THAN : Z := 1.
Definition CSTR_EQUAL : Z := 2.
Definition CSTR_GREATER_THAN : Z := 3.
Definition S_OK : Z := 0.

(** A registry handle: a predefined root, or a key opened below one. *)
Inductive HKEY : Type :=
| HKEY_CLASSES_ROOT
| HKEY_CURRENT_CONFIG
| HKEY_CURRENT_USER
| HKEY_LOCAL_MACHINE
| HKEY_USERS
| HKEY_opened (root : HKEY) (subkey : list Z).

(** The system calls, as functions of their inputs.  Wide strings are passed
    as the units before the terminator; a buffer is passed with its size and
    comes back with the size the call stored. *)
Record Win32 : Type := {
  (** [MultiByteToWideChar(CP_UTF8, 0, str, n, buf, len)]: the units written *)
  MultiByteToWideChar : string -> list Z;
  (** [WideCharToMultiByte(CP_UTF8, 0, wstr, n, buf, len, NULL, NULL)] *)
  WideCharToMultiByte : list Z -> string;
  (** [RegGetValue(hKey, subkey, value, flags, NULL, buffer, &len)]:
      status, buffer and len after the call *)
  RegGetValue : HKEY -> list Z -> list Z -> Z -> list Z -> Z -> Z * list Z * Z;
  (** [RegOpenKeyEx(hKey, subkey, 0, samDesired, &result)] *)
  RegOpenKeyEx : HKEY -> list Z -> Z -> Z * HKEY;
  (** [RegEnumKeyEx(hKey, index, name, &len, ...)]: status, name and len
      after the call *)
  RegEnumKeyEx : HKEY -> Z -> list Z -> Z -> Z * list Z * Z;
  GetLastError : Z;
  (** [CompareStringOrdinal(lhs, -1, rhs, -1, ignoreCase)] *)
  CompareStringOrdinal : list Z -> list Z -> bool -> Z;
  (** [SHGetKnownFolderPath(FOLDERID_LocalAppData, 0, NULL, &path)] *)
  SHGetKnownFolderPath_LocalAppData : Z * list Z;
  (** [GetModuleFileName(NULL, buffer, size)]: length stored, buffer *)
  GetModuleFileName : list Z -> Z -> Z * list Z
}.

(** [std::wstring ToWinWide(const std::string& str)]: the first call
    measures, the second fills a string of that length. *)
Definition ToWinWide (os : Win32) (str : string) : list Z :=
  MultiByteToWideChar os str.

(** [std::string FromWinWide(const std::wstring& wstr)] *)
Definition FromWinWide (os : Win32) (wstr : list Z) : string :=
  WideCharToMultiByte os wstr.

(** [HKEY GetRegistryRootKey(const std::string& rootKey)] *)
Definition GetRegistryRootKey (rootKey : string) : M HKEY :=
  if String.eqb rootKey "HKEY_CLASSES_ROOT" then mret HKEY_CLASSES_ROOT
  else if String.eqb rootKey "HKEY_CURRENT_CONFIG" then mret HKEY_CURRENT_CONFIG
  else if String.eqb rootKey "HKEY_CURRENT_USER" then mret HKEY_CURRENT_USER
  else if String.eqb rootKey "HKEY_LOCAL_MACHINE" then mret HKEY_LOCAL_MACHINE
  else if String.eqb rootKey "HKEY_USERS" then mret HKEY_USERS
  else mthrow (invalid_argument "Invalid registry key given.").

(** A wide string of [n] zero units: [std::wstring(n, 0)]. *)
Definition zero_wstring (n : Z) : list Z := replicate (Z.to_nat n) 0.

(** A call that was given the buffer [wstr] of [MAX_PATH] units and came
    back with success and more units than that has written past the end of
    the buffer. *)
Definition written_past_wstr (answer : Z * list Z * Z) : bool :=
  let '(ret, wstr, len) := answer in
  (ret =? ERROR_SUCCESS) && (MAX_PATH <? Z.of_nat (length wstr)).

(** [std::string RegKeyStringValue(rootKey, subkey, value)].  The first
    call is given [len = MAX_PATH] bytes of the [2 * MAX_PATH] bytes of
    [wstr] and cannot write past it.  The retry is given the [len] the first
    call left, which after [ERROR_MORE_DATA] is the size of the value: what
    it stores can then exceed the buffer. *)
Definition RegKeyStringValue (os : Win32) (rootKey subkey value : string) : M string :=
  hKey <- GetRegistryRootKey rootKey ;;
  let len := MAX_PATH in
  let wstr := zero_wstring MAX_PATH in
  log_if_present lvl_trace
    ("Getting string for registry key, subkey and value: " +:+ rootKey +:+ ", " +:+
     subkey +:+ ", " +:+ value) ;;;
  let '(ret, wstr, len) :=
    RegGetValue os hKey (c_str (ToWinWide os subkey)) (c_str (ToWinWide os value))
      (Z.lor RRF_RT_REG_SZ RRF_SUBKEY_WOW6432KEY) wstr len in
  second <-
    (if negb (ret =? ERROR_SUCCESS) then
       log_unchecked lvl_info
         "Failed to get string value from 32-bit Registry view, trying 64-bit Registry view." ;;;
       let retry :=
         RegGetValue os hKey (c_str (ToWinWide os subkey))
           (c_str (ToWinWide os value))
           (Z.lor RRF_RT_REG_SZ RRF_SUBKEY_WOW6464KEY) wstr len in
       if written_past_wstr retry then (fun s => (BufferOverrun, s))
       else mret retry
     else mret (ret, wstr, len)) ;;
  let '(ret, wstr, len) := second in
  if ret =? ERROR_SUCCESS then
    let stringValue := FromWinWide os (c_str wstr) in
    log_if_present lvl_info ("Found string: " +:+ stringValue) ;;;
    mret stringValue
  else
    log_if_present lvl_info "Failed to get string value." ;;;
    mret "".

Definition subkeys_error_message (rootKey subKey : string) : string :=
  "Failed to get the subkeys of the Registry key: " +:+ rootKey +:+ "\" +:+ subKey.

(** The [while (status == ERROR_SUCCESS)] loop of [GetRegistrySubKeys],
    entered with [status == ERROR_SUCCESS]; [fuel] bounds its iterations. *)
Fixpoint enumerate_subkeys (fuel : nat) (os : Win32) (rootKey subKey : string)
    (hKey : HKEY) (subKeyIndex : Z) (subKeyName : list Z) (len : Z)
    (subKeyNames : list string) : M (list string) :=
  match fuel with
  | O => fun s => (OutOfFuel, s)
  | S fuel' =>
      let '(status, subKeyName, len) := RegEnumKeyEx os hKey subKeyIndex subKeyName len in
      if negb (status =? ERROR_SUCCESS) && negb (status =? ERROR_NO_MORE_ITEMS) then
        mthrow (system_error (GetLastError os) (subkeys_error_message rootKey subKey))
      else
        let subKeyNames := subKeyNames ++ [FromWinWide os (c_str subKeyName)] in
        let subKeyIndex := (subKeyIndex + 1) mod 2 ^ 32 in
        if status =? ERROR_SUCCESS then
          enumerate_subkeys fuel' os rootKey subKey hKey subKeyIndex subKeyName len
            subKeyNames
        else mret subKeyNames
  end.

(** [std::vector<std::string> GetRegistrySubKeys(rootKey, subKey)]; the
    system's description of the error, which the warning appends, is left
    out of the message. *)
Definition GetRegistrySubKeys (fuel : nat) (os : Win32) (rootKey subKey : string)
    : M (list string) :=
  log_if_present lvl_trace
    ("Getting subkey names for registry key and subkey: " +:+ rootKey +:+ ", " +:+
     subKey) ;;;
  root <- GetRegistryRootKey rootKey ;;
  let '(status, hKey) :=
    RegOpenKeyEx os root (c_str (ToWinWide os subKey)) KEY_ENUMERATE_SUB_KEYS in
  if negb (status =? ERROR_SUCCESS) then
    log_if_present lvl_warn
      ("Failed to open the Registry key " +:+ dq +:+ rootKey +:+ "\" +:+ subKey +:+ dq) ;;;
    mret []
  else
    enumerate_subkeys fuel os rootKey subKey hKey 0 (zero_wstring MAX_PATH) MAX_PATH [].

(** *** A registry to run the calls against

    One hive, with its two views of the values and the child keys of each
    key in enumeration order.  A caller without read access gets
    [ERROR_ACCESS_DENIED] from every call. *)
Record Registry : Type := {
  reg_view32 : gmap (list Z * list Z) (list Z);
  reg_view64 : gmap (list Z * list Z) (list Z);
  reg_keys : gmap (list Z) (list (list Z));
  reg_access_denied : bool
}.

(** Storing [data] and its terminator at the start of [buffer]. *)
Definition store_wstring (data buffer : list Z) : list Z :=
  data ++ [0] ++ drop (S (length data)) buffer.

Definition registry_get_value (r : Registry) (hKey : HKEY) (subkey value : list Z)
    (flags : Z) (buffer : list Z) (len : Z) : Z * list Z * Z :=
  if reg_access_denied r then (ERROR_ACCESS_DENIED, buffer, len)
  else
    let view :=
      if Z.land flags RRF_SUBKEY_WOW6432KEY =? 0 then reg_view64 r else reg_view32 r in
    match view !! (subkey, value) with
    | None => (ERROR_FILE_NOT_FOUND, buffer, len)
    | Some data =>
        let needed := 2 * (Z.of_nat (length data) + 1) in
        if needed <=? len then (ERROR_SUCCESS, store_wstring data buffer, needed)
        else (ERROR_MORE_DATA, buffer, needed)
    end.

Definition registry_open_key (r : Registry) (root : HKEY) (subkey : list Z) (sam : Z)
    : Z * HKEY :=
  if reg_access_denied r then (ERROR_ACCESS_DENIED, root)
  else
    match reg_keys r !! subkey with
    | Some _ => (ERROR_SUCCESS, HKEY_opened root subkey)
    | None => (ERROR_FILE_NOT_FOUND, root)
    end.

Definition ERROR_INVALID_HANDLE : Z := 6.

(** [len] is the room in [name], terminator included, on entry and the
    length stored, terminator excluded, on success. *)
Definition registry_enum_key (r : Registry) (hKey : HKEY) (index : Z) (name : list Z)
    (len : Z) : Z * list Z * Z :=
  match hKey with
  | HKEY_opened _ subkey =>
      match reg_keys r !! subkey with
      | Some children =>
          match children !! Z.to_nat index with
          | Some child =>
              if Z.of_nat (length child) + 1 <=? len
              then (ERROR_SUCCESS, store_wstring child name, Z.of_nat (length child))
              else (ERROR_MORE_DATA, name, len)
          | None => (ERROR_NO_MORE_ITEMS, name, len)
          end
      | None => (ERROR_INVALID_HANDLE, name, len)
      end
  | _ => (ERROR_INVALID_HANDLE, name, len)
  end.

(** Case mapping of the stand-ins: the ASCII letters only. *)
Definition ascii_upper (u : Z) : Z := if in_range 97 122 u then u - 32 else u.
Definition ascii_fold (u : Z) : Z := if in_range 65 90 u then u + 32 else u.

(** Three-way comparison of unit sequences in code unit order. *)
Fixpoint compare_units (a b : list Z) : comparison :=
  match a, b with
  | [], [] => Eq
  | [], _ :: _ => Lt
  | _ :: _, [] => Gt
  | x :: a', y :: b' =>
      match x ?= y with
      | Eq => compare_units a' b'
      | c => c
      end
  end.

Definition ordinal_compare (lhs rhs : list Z) (ignoreCase : bool) : Z :=
  let f := if ignoreCase then ascii_upper else (fun u => u) in
  match compare_units (map f lhs) (map f rhs) with
  | Lt => CSTR_LESS_THAN
  | Eq => CSTR_EQUAL
  | Gt => CSTR_GREATER_THAN
  end.

Definition win32_of_registry (r : Registry) : Win32 := {|
  MultiByteToWideChar := widen;
  WideCharToMultiByte := narrow;
  RegGetValue := registry_get_value r;
  RegOpenKeyEx := registry_open_key r;
  RegEnumKeyEx := registry_enum_key r;
  GetLastError := 0;
  CompareStringOrdinal := ordinal_compare;
  SHGetKnownFolderPath_LocalAppData := (S_OK, widen "C:\Users\loot\AppData\Local");
  GetModuleFileName := fun buffer size =>
    let name := widen "C:\Program Files\LOOT\LOOT.exe" in
    (Z.of_nat (length name), store_wstring name buffer)
|}.

(** ** CompareFilenames *)

(** The part of ICU the comparison uses. *)
Record ICU : Type := {
  UnicodeString : Type;
  (** [icu::UnicodeString::fromUTF8(s)] *)
  fromUTF8 : string -> UnicodeString;
  (** [lhs.caseCompare(rhs, U_FOLD_CASE_DEFAULT)], an [int8_t] *)
  caseCompare : UnicodeString -> UnicodeString -> Z
}.

Definition icu_ascii : ICU := {|
  UnicodeString := list Z;
  fromUTF8 := widen;
  caseCompare := fun lhs rhs =>
    match compare_units (map ascii_fold lhs) (map ascii_fold rhs) with
    | Lt => -1
    | Eq => 0
    | Gt => 1
    end
|}.

Definition invalid_filename_message : string :=
  "One of the filenames to compare was invalid.".

(** [int CompareFilenames(lhs, rhs)], the branch compiled when [_WIN32] is
    defined. *)
Definition CompareFilenames_win32 (os : Win32) (lhs rhs : string) : M Z :=
  let result :=
    CompareStringOrdinal os (c_str (ToWinWide os lhs)) (c_str (ToWinWide os rhs)) true in
  if result =? CSTR_LESS_THAN then mret (-1)
  else if result =? CSTR_EQUAL then mret 0
  else if result =? CSTR_GREATER_THAN then mret 1
  else mthrow (invalid_argument invalid_filename_message).

(** [int CompareFilenames(lhs, rhs)], the other branch. *)
Definition CompareFilenames_icu (icu : ICU) (lhs rhs : string) : M Z :=
  let unicodeLhs := fromUTF8 icu lhs in
  let unicodeRhs := fromUTF8 icu rhs in
  mret (caseCompare icu unicodeLhs unicodeRhs).

(** ** Well-known directories *)

(** The POSIX services used: the environment and [readlink]. *)
Record Posix : Type := {
  environ : gmap string string;
  (** [readlink(path, buffer, size)]: the count returned and the buffer *)
  readlink : string -> Z -> Z * string
}.

(** [getenv(name)]: [None] is the null pointer. *)
Definition getenv (sys : Posix) (name : string) : option string := environ sys !! name.

Definition PATH_MAX : Z := 4096.

Definition exe_error_message : string := "Failed to get LOOT executable path.".

Section WellKnownPaths.
Context `{PathOps}.

(** [getExecutableDirectory()] where [_WIN32] is not defined *)
Definition getExecutableDirectory_posix (sys : Posix) : M path :=
  let '(count, result) := readlink sys "/proc/self/exe" PATH_MAX in
  if count <? 0 then
    log_if_present lvl_error exe_error_message ;;;
    mthrow (system_error count exe_error_message)
  else
    mret (parent_path (u8path (String.substring 0 (Z.to_nat count) result))).

(** [getLocalAppDataPath()] where [_WIN32] is not defined *)
Definition getLocalAppDataPath_posix (sys : Posix) : M path :=
  match getenv sys "XDG_CONFIG_HOME" with
  | Some xdgConfigHome => mret (u8path xdgConfigHome)
  | None =>
      match getenv sys "HOME" with
      | Some xdgConfigHome => mret (u8path xdgConfigHome </> u8path ".config")
      | None => getExecutableDirectory_posix sys
      end
  end.

(** [getExecutableDirectory()] where [_WIN32] is defined *)
Definition getExecutableDirectory_win32 (os : Win32) : M path :=
  let '(stored, executablePathString) :=
    GetModuleFileName os (zero_wstring MAX_PATH) MAX_PATH in
  if stored =? 0 then
    log_if_present lvl_error exe_error_message ;;;
    mthrow (system_error (GetLastError os) exe_error_message)
  else mret (parent_path (path_of_u16string executablePathString)).

(** [getLocalAppDataPath()] where [_WIN32] is defined *)
Definition getLocalAppDataPath_win32 (os : Win32) : M path :=
  let '(hr, folder) := SHGetKnownFolderPath_LocalAppData os in
  if negb (hr =? S_OK) then
    mthrow (system_error (GetLastError os) "Failed to get %LOCALAPPDATA% path.")
  else mret (path_of_u16string folder).
End WellKnownPaths.

(** ** Vocabulary of the statements about the marker parser *)

(** What [char16_value] yields for the octets [lo], [hi] of a file: where
    [char] is signed and [lo] has its top bit set, the sign extension of
    [lo] fills the upper half of the unit, whatever [hi] is. *)
Definition unit_decoded (char_is_signed : bool) (lo hi : Z) : Z :=
  if char_is_signed && (128 <=? lo) then 65280 + lo else lo + 256 * hi.

Definition octet_values : list Z := map Z.of_nat (seq 0 256).

Definition is_unit (u : Z) : Prop := 0 <= u < 65536.

(** A unit survives the loop when sign extension cannot touch it. *)
Definition survives (sgn : bool) (u : Z) : Prop :=
  sgn = false \/ u mod 256 < 128 \/ u / 256 = 255.

(** The relative path the parser extracts from the octets of a marker file,
    or the exception of the decoding loop. *)
Definition decoded_relative_path (sgn : bool) (octets : list Z) : exception + list Z :=
  match decode_content (map (char_of_octet sgn) octets) with
  | inr content => inr (relative_path_units content)
  | inl e => inl e
  end.

(** The marker file of [root] is a regular file and the copy obtained
    [octets] from it without an exception. *)
Definition marker_read `{PathOps} (disk : Disk) (root : path) (octets : list Z) : Prop :=
  is_regular_file disk (gamingRootFilePath_of root) = inr true /\
  copied (ifstream_copy disk (gamingRootFilePath_of root)) = inr octets.

(** The marker file and disks used to run the parser. *)
Definition marker_path : string := "/mnt/d/.GamingRoot".
Definition drive_root : @path posix_paths := "/mnt/d".

(** ** Vocabulary of the statements about the registry accessor *)

Definition status_of (r : Z * list Z * Z) : Z := fst (fst r).
Definition buffer_of (r : Z * list Z * Z) : list Z := snd (fst r).
Definition len_of (r : Z * list Z * Z) : Z := snd r.

(** The first call of [RegKeyStringValue]: the 32-bit view, a fresh buffer. *)
Definition first_lookup (os : Win32) (hKey : HKEY) (subkey value : string)
    : Z * list Z * Z :=
  RegGetValue os hKey (c_str (ToWinWide os subkey)) (c_str (ToWinWide os value))
    (Z.lor RRF_RT_REG_SZ RRF_SUBKEY_WOW6432KEY) (zero_wstring MAX_PATH) MAX_PATH.

(** Its second call: the 64-bit view, with the buffer and the length the
    first call left. *)
Definition second_lookup (os : Win32) (hKey : HKEY) (subkey value : string)
    : Z * list Z * Z :=
  RegGetValue os hKey (c_str (ToWinWide os subkey)) (c_str (ToWinWide os value))
    (Z.lor RRF_RT_REG_SZ RRF_SUBKEY_WOW6464KEY)
    (buffer_of (first_lookup os hKey subkey value))
    (len_of (first_lookup os hKey subkey value)).

(** A registry whose key [Software\Bethesda] has the one child [Skyrim];
    the install path of the game is recorded in the 64-bit view only. *)
Definition registry_example : Registry := {|
  reg_view32 := ∅;
  reg_view64 :=
    {[ (widen "Software\Bethesda\Skyrim", widen "Installed Path") := widen "C:\Games\Skyrim" ]};
  reg_keys :=
    {[ widen "Software\Bethesda" := [widen "Skyrim"];
       widen "Software\Bethesda\Skyrim" := [] ]};
  reg_access_denied := false
|}.

(** The same registry read by a caller without access rights. *)
Definition registry_locked : Registry := {|
  reg_view32 := reg_view32 registry_example;
  reg_view64 := reg_view64 registry_example;
  reg_keys := reg_keys registry_example;
  reg_access_denied := true
|}.

(** ** Systems used to run the path resolver *)

(** Neither variable is set and [/proc/self/exe] cannot be read. *)
Definition posix_bare : Posix := {|
  environ := ∅;
  readlink := fun _ _ => (-1, "")
|}.

(** Only [HOME] is set. *)
Definition posix_home : Posix := {|
  environ := {[ "HOME" := "/home/loot" ]};
  readlink := fun _ _ => (13, "/usr/bin/LOOT")
|}.

(** [XDG_CONFIG_HOME] is set, to the empty string. *)
Definition posix_empty_xdg : Posix := {|
  environ := {[ "XDG_CONFIG_HOME" := ""; "HOME" := "/home/loot" ]};
  readlink := fun _ _ => (13, "/usr/bin/LOOT")
|}.

(** ** GetDriveRootPaths *)

(** The volume listing of Win32.  [GetLogicalDriveStrings size buffer] is the
    call [GetLogicalDriveStrings(size, buffer)]: the value returned and the
    units the buffer holds afterwards; the size query passes size 0 and no
    buffer. *)
Record Win32Volumes : Type := {
  GetLogicalDriveStrings : Z -> list Z -> Z * list Z;
  GetLastError_volumes : Z
}.

(** [buffer.resize(n)] on a [std::vector<wchar_t>]: cut to [n] elements, or
    extend with zero elements. *)
Definition resize_buffer (n : nat) (buffer : list Z) : list Z :=
  take n buffer ++ replicate (n - length buffer) 0.

(** The loop over the buffer: [current] holds the units from [stringStartIt]
    up to [it]; a zero unit closes a string, which is pushed. *)
Fixpoint split_drive_strings (buffer current : list Z) : list (list Z) :=
  match buffer with
  | [] => []
  | u :: rest =>
      if u =? 0 then current :: split_drive_strings rest []
      else split_drive_strings rest (current ++ [u])
  end.

Definition drive_strings_error_message : string :=
  "Failed to length of the buffer needed to hold all drive root paths".

(** [std::vector<std::filesystem::path> GetDriveRootPaths()] where [_WIN32]
    is defined.  [maxBufferLength] is a [DWORD]; the size passed to the second
    call is converted back to [DWORD]. *)
Definition GetDriveRootPaths_win32 `{PathOps} (vol : Win32Volumes) : M (list path) :=
  let maxBufferLength := fst (GetLogicalDriveStrings vol 0 []) in
  if maxBufferLength =? 0 then
    mthrow (system_error (GetLastError_volumes vol) drive_strings_error_message)
  else
    let size := Z.to_nat (maxBufferLength + 1) in
    let buffer := replicate size 0 in
    let '(stringsLength, written) :=
      GetLogicalDriveStrings vol ((maxBufferLength + 1) mod 2 ^ 32) buffer in
    let buffer := resize_buffer size written in
    let buffer := resize_buffer (Z.to_nat stringsLength) buffer in
    mret (map path_of_u16string (split_drive_strings buffer [])).

(** The layout of the drive strings: each root followed by a zero unit. *)
Fixpoint drive_strings (roots : list (list Z)) : list Z :=
  match roots with
  | [] => []
  | r :: rest => r ++ [0] ++ drive_strings rest
  end.

Definition zero_free (w : list Z) : Prop := Forall (fun u => u <> 0) w.

(** A system with the given drive roots: the size query answers the length
    of the strings and of the final terminator, the second call stores the
    strings when they fit. *)
Definition volumes_of (roots : list (list Z)) : Win32Volumes := {|
  GetLogicalDriveStrings := fun size buffer =>
    let strings := drive_strings roots in
    if Z.of_nat (length strings) + 1 <=? size
    then (Z.of_nat (length strings),
          strings ++ [0] ++ drop (S (length strings)) buffer)
    else (Z.of_nat (length strings) + 1, buffer);
  GetLastError_volumes := 0
|}.

(** ** Messages *)

(** [loot::MessageType] *)
Inductive MessageType : Type := say | warn | error.

(** The fields of [loot::SimpleMessage] the helpers read. *)
Record SimpleMessage : Type := {
  type : MessageType;
  text : string
}.

(** [MessageType mapMessageType(const std::string& type)] *)
Definition mapMessageType (type : string) : MessageType :=
  if String.eqb type "say" then say
  else if String.eqb type "warn" then warn
  else error.

(** The line feed character. *)
Definition lf : string := String (ascii_of_nat 10) EmptyString.

(** One pass of the loop body of [messagesAsMarkdown] over [content]. *)
Definition append_message (content : string) (message : SimpleMessage) : string :=
  let content := content +:+ "- " in
  let content :=
    match type message with
    | warn => content +:+ "Warning: "
    | error => content +:+ "Error: "
    | say => content +:+ "Note: "
    end in
  content +:+ (text message +:+ lf).

(** [std::string messagesAsMarkdown(const std::vector<SimpleMessage>&)] *)
Definition messagesAsMarkdown (messages : list SimpleMessage) : string :=
  match messages with
  | [] => ""
  | _ => fold_left append_message messages ("## Messages" +:+ lf +:+ lf)
  end.

(** ** Vocabulary of the further statements *)

(** The names [GetRegistryRootKey] accepts. *)
Definition root_key_names : list string :=
  ["HKEY_CLASSES_ROOT"; "HKEY_CURRENT_CONFIG"; "HKEY_CURRENT_USER";
   "HKEY_LOCAL_MACHINE"; "HKEY_USERS"].

Definition invalid_root_key : exception := invalid_argument "Invalid registry key given.".

(** A registry with the install path recorded in the 32-bit view, and
    another path in the 64-bit view. *)
Definition registry_both_views : Registry := {|
  reg_view32 :=
    {[ (widen "Software\Bethesda\Skyrim", widen "Installed Path") := widen "C:\Games\Skyrim" ]};
  reg_view64 :=
    {[ (widen "Software\Bethesda\Skyrim", widen "Installed Path") := widen "D:\Other" ]};
  reg_keys := reg_keys registry_example;
  reg_access_denied := false
|}.

(** The list item [messagesAsMarkdown] writes for a message. *)
Definition markdown_item (message : SimpleMessage) : string :=
  "- " +:+
  match type message with
  | warn => "Warning: "
  | error => "Error: "
  | say => "Note: "
  end +:+ text message +:+ lf.

Fixpoint markdown_items (messages : list SimpleMessage) : string :=
  match messages with
  | [] => ""
  | m :: rest => markdown_item m +:+ markdown_items rest
  end.

(** The number of line feeds in a text. *)
Fixpoint count_lf (s : string) : nat :=
  match s with
  | EmptyString => O
  | String c r => ((if Ascii.eqb c (ascii_of_nat 10) then 1 else 0) + count_lf r)%nat
  end.

(** A disk on which the status query of every path throws, as for a drive
    that is not ready. *)
Definition disk_not_ready : @Disk posix_paths := {|
  is_regular_file := fun _ => inl (filesystem_error "filesystem error: status: Input/output error");
  ifstream_copy := fun _ => OpenFailed;
  system_message := fun _ => "Input/output error"
|}.

(** Whether a logger is attached. *)
Definition attached (s : sink) : bool :=
  match s with
  | Some _ => true
  | None => false
  end.

(** What the conversions of a relative path decide: the exception of the
    conversion to a path; else, with a logger, the exception of the
    conversion of that path to UTF-8 for the log; else the root joined with
    the path. *)
Definition conversion_outcome `{PathOps} (logger_attached : bool) (root : path)
    (relativePath : list Z) : outcome (option path) :=
  match convert_u16string relativePath with
  | inl e => Throws e
  | inr converted =>
      if logger_attached then
        match u8string_checked converted with
        | inl e => Throws e
        | inr _ => Returns (Some (root </> converted))
        end
      else Returns (Some (root </> converted))
  end.

(** A registry whose install path, in both views, is 300 units long. *)
Definition long_install_path : list Z := replicate 300 97.

Definition registry_long_value : Registry := {|
  reg_view32 :=
    {[ (widen "Software\Bethesda\Skyrim", widen "Installed Path") := long_install_path ]};
  reg_view64 :=
    {[ (widen "Software\Bethesda\Skyrim", widen "Installed Path") := long_install_path ]};
  reg_keys := reg_keys registry_example;
  reg_access_denied := false
|}.
(** * Part II: properties of the helpers *)

(** ** crcToString *)

Example crcToString_deadbeef : crcToString 3735928559 = "DEADBEEF".
Proof. reflexivity. Qed.

Example crcToString_small : crcToString 255 = "000000FF".
Proof. reflexivity. Qed.

(** *** Facts about the formatting functions *)

Lemma string_length_app (s t : string) :
  String.length (s +:+ t) = (String.length s + String.length t)%nat.
Proof. induction s as [|c s IH]; simpl; [reflexivity | now rewrite IH]. Qed.

Lemma replicate_char_length (n : nat) (c : ascii) :
  String.length (replicate_char n c) = n.
Proof. induction n as [|n IH]; simpl; congruence. Qed.

Lemma hex_digits_S (f : nat) (upper : bool) (n : Z) :
  hex_digits (S f) upper n =
  if n <? 16 then String (hex_digit upper n) EmptyString
  else hex_digits f upper (n / 16) +:+ String (hex_digit upper (n mod 16)) EmptyString.
Proof. reflexivity. Qed.

Lemma hex_digits_length (upper : bool) (k : nat) :
  forall n, 0 <= n < 16 ^ Z.of_nat (S k) ->
    (1 <= String.length (hex_digits (S k) upper n) <= S k)%nat.
Proof.
  induction k as [|k IH]; intros n Hn.
  - simpl hex_digits. change (16 ^ Z.of_nat 1) with 16 in Hn.
    destruct (Z.ltb_spec n 16); [simpl; lia | lia].
  - rewrite hex_digits_S. destruct (Z.ltb_spec n 16) as [Hlt | Hge]; [simpl; lia |].
    rewrite string_length_app. cbn [String.length].
    assert (Hq : 0 <= n / 16 < 16 ^ Z.of_nat (S k)).
    { split; [apply Z.div_pos; lia |].
      apply Z.div_lt_upper_bound; [lia |].
      replace (Z.of_nat (S (S k))) with (Z.succ (Z.of_nat (S k))) in Hn by lia.
      rewrite Z.pow_succ_r in Hn by lia. lia. }
    specialize (IH _ Hq). lia.
Qed.

Lemma hex_value_of_hex_digit (d : Z) :
  0 <= d < 16 -> hex_value_of_char (hex_digit true d) = Some d.
Proof.
  intros Hd.
  assert (Hc : d = 0 \/ d = 1 \/ d = 2 \/ d = 3 \/ d = 4 \/ d = 5 \/ d = 6 \/ d = 7 \/
               d = 8 \/ d = 9 \/ d = 10 \/ d = 11 \/ d = 12 \/ d = 13 \/ d = 14 \/ d = 15)
    by lia.
  repeat (destruct Hc as [-> | Hc]; [reflexivity |]). now subst d.
Qed.

Lemma hex_value_acc_app (s t : string) :
  forall acc,
    hex_value_acc acc (s +:+ t) =
    match hex_value_acc acc s with
    | Some a => hex_value_acc a t
    | None => None
    end.
Proof.
  induction s as [|c s IH]; intros acc; simpl; [reflexivity |].
  destruct (hex_value_of_char c); [apply IH | reflexivity].
Qed.

Lemma hex_value_acc_digits (k : nat) :
  forall n acc, 0 <= n < 16 ^ Z.of_nat (S k) ->
    hex_value_acc acc (hex_digits (S k) true n) =
    Some (acc * 16 ^ Z.of_nat (String.length (hex_digits (S k) true n)) + n).
Proof.
  induction k as [|k IH]; intros n acc Hn.
  - change (16 ^ Z.of_nat 1) with 16 in Hn. simpl hex_digits.
    destruct (Z.ltb_spec n 16); [| lia].
    simpl. rewrite hex_value_of_hex_digit by lia. f_equal. lia.
  - rewrite hex_digits_S. destruct (Z.ltb_spec n 16) as [Hlt | Hge].
    + simpl. rewrite hex_value_of_hex_digit by lia. f_equal. lia.
    + assert (Hq : 0 <= n / 16 < 16 ^ Z.of_nat (S k)).
      { split; [apply Z.div_pos; lia |].
        apply Z.div_lt_upper_bound; [lia |].
        replace (Z.of_nat (S (S k))) with (Z.succ (Z.of_nat (S k))) in Hn by lia.
        rewrite Z.pow_succ_r in Hn by lia. lia. }
      rewrite hex_value_acc_app, (IH _ acc Hq). cbn [hex_value_acc].
      rewrite hex_value_of_hex_digit by (apply Z.mod_pos_bound; lia).
      f_equal. rewrite string_length_app. cbn [String.length].
      set (len := String.length (hex_digits (S k) true (n / 16))).
      replace (Z.of_nat (len + 1)) with (Z.succ (Z.of_nat len)) by lia.
      rewrite Z.pow_succ_r by lia.
      pose proof (Z.div_mod n 16 ltac:(lia)). lia.
Qed.

Lemma hex_value_acc_zeros (k : nat) (s : string) :
  hex_value_acc 0 (replicate_char k "0"%char +:+ s) = hex_value_acc 0 s.
Proof. induction k as [|k IH]; simpl; [reflexivity | exact IH]. Qed.

Lemma format_08X_spec (n : Z) :
  0 <= n < 2 ^ 32 ->
  String.length (format_08X n) = 8%nat /\ hex_value (format_08X n) = Some n.
Proof.
  intros Hn. unfold format_08X, pad_zero, hex_value.
  assert (Hn' : 0 <= n < 16 ^ Z.of_nat 8) by (change (16 ^ Z.of_nat 8) with (2 ^ 32); lia).
  pose proof (hex_digits_length true 7 n Hn') as Hlen.
  split.
  - rewrite string_length_app, replicate_char_length. lia.
  - rewrite hex_value_acc_zeros, (hex_value_acc_digits 7 n 0 Hn'). f_equal; lia.
Qed.

(** C10.  For every 32-bit unsigned [crc], [crcToString crc] has exactly 8
    characters and is the zero-padded upper-case hexadecimal text of [crc]:
    read back as a hexadecimal number over the digits 0-9 and A-F only, it
    denotes [crc]. *)
Theorem crcToString_is_8_upper_hex_digits (crc : Z) :
  0 <= crc < 2 ^ 32 ->
  String.length (crcToString crc) = 8%nat /\
  hex_value (crcToString crc) = Some crc.
Proof.
  intros Hcrc. unfold crcToString.
  rewrite Z.mod_small by exact Hcrc. now apply format_08X_spec.
Qed.

Lemma crcToString_is_8_upper_hex_digits_witness :
  0 <= 3735928559 < 2 ^ 32 /\
  String.length (crcToString 3735928559) = 8%nat /\
  hex_value (crcToString 3735928559) = Some 3735928559.
Proof.
  split; [lia | apply (crcToString_is_8_upper_hex_digits 3735928559); lia].
Defined.

(** ** The monad *)

Lemma bind_returns {A B} (m : M A) (k : A -> M B) (s s' : sink) (a : A) :
  m s = (Returns a, s') -> bind m k s = k a s'.
Proof. intros E. unfold bind. now rewrite E. Qed.

Lemma bind_throws {A B} (m : M A) (k : A -> M B) (s s' : sink) (e : exception) :
  m s = (Throws e, s') -> bind m k s = (Throws e, s').
Proof. intros E. unfold bind. now rewrite E. Qed.

Lemma log_if_present_returns (lvl : level) (msg : string) (s : sink) :
  exists s', log_if_present lvl msg s = (Returns tt, s') /\
             (s = None <-> s' = None).
Proof.
  destruct s as [l|]; simpl; eexists; (split; [reflexivity |]); split; congruence.
Qed.

(** Running the steps of a call: unfold the monad and compute. *)
Ltac run :=
  unfold result, bind, mret, mthrow, lift_call, try_catch,
    log_if_present, log_unchecked; simpl.

(** ** FindXboxGamingRootPath *)

(** *** Decoding one unit *)

Lemma octet_values_complete (o : Z) : 0 <= o < 256 -> In o octet_values.
Proof.
  intros Ho. unfold octet_values. apply in_map_iff.
  exists (Z.to_nat o). split; [lia | apply in_seq; lia].
Qed.

Lemma char16_value_of_octets (sgn : bool) (lo hi : Z) :
  0 <= lo < 256 -> 0 <= hi < 256 ->
  char16_value (char_of_octet sgn lo) (char_of_octet sgn hi) = unit_decoded sgn lo hi.
Proof.
  intros Hlo Hhi.
  assert (Hall : forallb (fun s =>
            forallb (fun l =>
              forallb (fun h =>
                char16_value (char_of_octet s l) (char_of_octet s h) =? unit_decoded s l h)
              octet_values) octet_values) [true; false] = true)
    by (vm_compute; reflexivity).
  rewrite forallb_forall in Hall.
  assert (Hs : In sgn [true; false]) by (destruct sgn; simpl; auto).
  specialize (Hall sgn Hs). rewrite forallb_forall in Hall.
  specialize (Hall lo (octet_values_complete lo Hlo)). rewrite forallb_forall in Hall.
  specialize (Hall hi (octet_values_complete hi Hhi)). now apply Z.eqb_eq in Hall.
Qed.

(** *** The decoding loop *)

Lemma decode_content_pair (b0 b1 : Z) (rest : list Z) :
  decode_content (b0 :: b1 :: rest) =
  match decode_content rest with
  | inr content => inr (char16_value b0 b1 :: content)
  | inl e => inl e
  end.
Proof. reflexivity. Qed.

(** On an even number of bytes the loop ends normally, with half as many
    units. *)
Lemma decode_content_even (n : nat) :
  forall bytes, length bytes = (2 * n)%nat ->
    exists content, decode_content bytes = inr content /\ length content = n.
Proof.
  induction n as [|n IH]; intros bytes Hlen.
  - destruct bytes; [| discriminate]. exists []. split; reflexivity.
  - destruct bytes as [|b0 [|b1 rest]]; simpl in Hlen; try lia.
    destruct (IH rest ltac:(lia)) as (content & E & L).
    exists (char16_value b0 b1 :: content). rewrite decode_content_pair, E.
    split; [reflexivity | simpl; congruence].
Qed.

Lemma decode_content_app (a b ca cb : list Z) :
  decode_content a = inr ca -> decode_content b = inr cb ->
  decode_content (a ++ b) = inr (ca ++ cb).
Proof.
  revert a ca. fix IH 1. intros a ca Ha Hb.
  destruct a as [|b0 [|b1 rest]].
  - simpl in Ha. injection Ha as <-. exact Hb.
  - discriminate.
  - rewrite decode_content_pair in Ha.
    destruct (decode_content rest) as [e | cr] eqn:E; [discriminate |].
    injection Ha as <-.
    change ((b0 :: b1 :: rest) ++ b) with (b0 :: b1 :: (rest ++ b)).
    rewrite decode_content_pair, (IH rest cr E Hb). reflexivity.
Qed.

(** The units the loop reads back from the UTF-16LE octets of [units]. *)
Lemma decode_utf16le_octets (sgn : bool) (units : list Z) :
  Forall is_unit units ->
  decode_content (map (char_of_octet sgn) (utf16le_octets units)) =
  inr (map (fun u => unit_decoded sgn (u mod 256) (u / 256)) units).
Proof.
  induction 1 as [|u units Hu _ IH]; [reflexivity |].
  cbn [utf16le_octets map]. rewrite decode_content_pair, IH.
  unfold is_unit in Hu.
  rewrite char16_value_of_octets;
    [reflexivity | apply Z.mod_pos_bound; lia |
     split; [apply Z.div_pos; lia | apply Z.div_lt_upper_bound; lia]].
Qed.

Lemma unit_decoded_survives (sgn : bool) (u : Z) :
  is_unit u -> survives sgn u -> unit_decoded sgn (u mod 256) (u / 256) = u.
Proof.
  unfold is_unit, survives, unit_decoded. intros Hu Hs.
  pose proof (Z.div_mod u 256 ltac:(lia)) as Hdm.
  pose proof (Z.mod_pos_bound u 256 ltac:(lia)) as Hm.
  destruct sgn; simpl.
  - destruct (Z.leb_spec 128 (u mod 256)); lia.
  - lia.
Qed.

Lemma relative_path_units_spec (header rel : list Z) (terminator : Z) :
  length header = 4%nat ->
  relative_path_units (header ++ rel ++ [terminator]) = rel.
Proof.
  intros Hh. unfold relative_path_units, CHAR16_PATH_OFFSET.
  change (Z.to_nat 4) with 4%nat.
  rewrite drop_app_length' by (symmetry; exact Hh).
  rewrite !length_app, Hh. simpl length.
  replace (4 + (length rel + 1) - 4 - 1)%nat with (length rel) by lia.
  apply take_app_length.
Qed.

(** The round trip holds for every path whose units survive: all of them
    where [char] is unsigned, and where it is signed those with a low octet
    below 128 (ASCII among them). *)
Lemma decoded_relative_path_roundtrip (sgn : bool) (header rel : list Z) :
  length header = 8%nat -> Forall is_unit rel -> Forall (survives sgn) rel ->
  decoded_relative_path sgn (marker_octets header rel) = inr rel.
Proof.
  intros Hh Hu Hs. unfold decoded_relative_path, marker_octets.
  destruct (decode_content_even 4 (map (char_of_octet sgn) header)
              ltac:(rewrite length_map; lia)) as (ch & Ech & Lch).
  rewrite !map_app.
  erewrite decode_content_app; [| exact Ech |].
  2:{ eapply decode_content_app; [apply decode_utf16le_octets; exact Hu |].
      cbn [map]. rewrite decode_content_pair. reflexivity. }
  f_equal. rewrite relative_path_units_spec by exact Lch.
  clear - Hu Hs. induction Hu as [|u units Hu _ IH]; [reflexivity |].
  inversion Hs; subst. cbn [map]. rewrite unit_decoded_survives by assumption.
  f_equal. now apply IH.
Qed.

(** *** The two halves of the function *)

Section FindXboxFacts.
Context `{PathOps}.
Variable char_is_signed : bool.
Variable disk : Disk.

Lemma read_marker_regular (p : path) (octets : list Z) (s : sink) :
  is_regular_file disk p = inr true ->
  copied (ifstream_copy disk p) = inr octets ->
  read_marker char_is_signed disk p s =
  (Returns (Some (map (char_of_octet char_is_signed) octets)), s).
Proof. intros Hreg Hcopy. unfold read_marker. run. now rewrite Hreg, Hcopy. Qed.

Lemma read_marker_not_regular (p : path) (s : sink) :
  is_regular_file disk p = inr false ->
  read_marker char_is_signed disk p s = (Returns None, s).
Proof. intros Hreg. unfold read_marker. run. now rewrite Hreg. Qed.

Lemma read_marker_status_throws (p : path) (e : exception) (s : sink) :
  is_regular_file disk p = inl e ->
  result (read_marker char_is_signed disk p) s = Returns None.
Proof.
  intros Hreg. unfold read_marker. run. rewrite Hreg. now destruct s.
Qed.

Lemma read_marker_copy_throws (p : path) (e : exception) (s : sink) :
  is_regular_file disk p = inr true ->
  copied (ifstream_copy disk p) = inl e ->
  result (read_marker char_is_signed disk p) s = Returns None.
Proof.
  intros Hreg Hcopy. unfold read_marker. run. rewrite Hreg, Hcopy. now destruct s.
Qed.

Lemma FindXbox_after_read (root : path) (octets : list Z) (s : sink) :
  marker_read disk root octets ->
  FindXboxGamingRootPath char_is_signed disk root s =
  parse_marker root (gamingRootFilePath_of root)
    (map (char_of_octet char_is_signed) octets) s.
Proof.
  intros [Hreg Hcopy]. unfold FindXboxGamingRootPath.
  erewrite bind_returns by (apply read_marker_regular; eassumption). reflexivity.
Qed.

Lemma parse_marker_odd_with_sink (root p : path) (bytes : list Z)
    (l : list (level * string)) :
  Z.odd (Z.of_nat (length bytes)) = true ->
  result (parse_marker root p bytes) (Some l) =
  Throws (runtime_error (odd_length_message p)).
Proof.
  intros Hodd. unfold parse_marker. run.
  rewrite Zmod_odd, Hodd. reflexivity.
Qed.

Lemma parse_marker_odd_without_sink (root p : path) (bytes : list Z) :
  Z.odd (Z.of_nat (length bytes)) = true ->
  result (parse_marker root p bytes) None = NullDeref.
Proof.
  intros Hodd. unfold parse_marker. run.
  rewrite Zmod_odd, Hodd. reflexivity.
Qed.

Lemma even_length_half (bytes : list Z) :
  Z.even (Z.of_nat (length bytes)) = true ->
  length bytes = (2 * (length bytes / 2))%nat.
Proof.
  intros He. apply Z.even_spec in He. destruct He as [k Hk].
  pose proof (Nat.div_mod_eq (length bytes) 2) as Hd.
  pose proof (Nat.mod_upper_bound (length bytes) 2 ltac:(lia)). lia.
Qed.

(** The end of the function consults the sink only for its presence. *)
Lemma join_relative_path_result (root : path) (rel : list Z) (s : sink) :
  result (join_relative_path root rel) s = conversion_outcome (attached s) root rel.
Proof.
  unfold result, join_relative_path, conversion_outcome, if_logger. run.
  destruct s as [l|]; simpl.
  - destruct (convert_u16string rel) as [e | p]; simpl; [reflexivity |].
    destruct (u8string_checked p) as [e | text]; reflexivity.
  - destruct (convert_u16string rel) as [e | p]; reflexivity.
Qed.

Lemma parse_marker_even (root p : path) (bytes : list Z) (s : sink) :
  Z.even (Z.of_nat (length bytes)) = true ->
  exists content,
    decode_content bytes = inr content /\
    length content = (length bytes / 2)%nat /\
    result (parse_marker root p bytes) s =
    if Z.of_nat (length content) <? 5
    then Throws (runtime_error (too_short_message p))
    else conversion_outcome (attached s) root (relative_path_units content).
Proof.
  intros He.
  destruct (decode_content_even (length bytes / 2) bytes (even_length_half _ He))
    as (content & E & L).
  exists content. split; [exact E |]. split; [exact L |].
  unfold result, parse_marker. unfold bind at 1.
  destruct (log_if_present_returns lvl_debug
              ("Read the following bytes from " +:+ u8string p +:+ ": " +:+
               join " " (map hex_of_char bytes)) s) as (s1 & -> & Hs1).
  rewrite Zmod_even, He. cbn [negb Z.eqb]. rewrite E.
  unfold bind at 1. cbn [lift_call mret].
  change (CHAR16_PATH_OFFSET + 1) with 5.
  destruct (Z.of_nat (length content) <? 5).
  - run. now destruct s1.
  - fold (result (join_relative_path root (relative_path_units content)) s1).
    rewrite join_relative_path_result. f_equal.
    destruct s, s1; try reflexivity; exfalso;
      [apply proj2 in Hs1 | apply proj1 in Hs1]; now specialize (Hs1 eq_refl).
Qed.
End FindXboxFacts.

(** *** What the parser does with a marker file it has read *)

Section FindXboxOutcomes.
Context `{PathOps}.
Variable char_is_signed : bool.
Variable disk : Disk.

(** X11.  With a sink attached, an odd number of octets is refused by a
    [runtime_error] built with the text "Found a non-even number of bytes in
    the file at ", the path of the marker file between double quotes. *)
Lemma FindXbox_odd_with_sink (root : path) (octets : list Z)
    (l : list (level * string)) :
  marker_read disk root octets ->
  Z.odd (Z.of_nat (length octets)) = true ->
  result (FindXboxGamingRootPath char_is_signed disk root) (Some l) =
  Throws (runtime_error
            ("Found a non-even number of bytes in the file at " +:+ dq +:+
             u8string (root </> u8path ".GamingRoot") +:+ dq)).
Proof.
  intros Hread Hodd. unfold result. rewrite (FindXbox_after_read _ _ _ _ _ Hread).
  apply parse_marker_odd_with_sink. now rewrite length_map.
Qed.

(** With no sink attached, the same input dereferences the null logger. *)
Lemma FindXbox_odd_without_sink (root : path) (octets : list Z) :
  marker_read disk root octets ->
  Z.odd (Z.of_nat (length octets)) = true ->
  result (FindXboxGamingRootPath char_is_signed disk root) None = NullDeref.
Proof.
  intros Hread Hodd. unfold result. rewrite (FindXbox_after_read _ _ _ _ _ Hread).
  apply parse_marker_odd_without_sink. now rewrite length_map.
Qed.

(** X6.  The round trip of the marker format, for the paths whose units the
    decoding loop leaves alone and which convert to a path: after any
    8-octet header, the UTF-16LE octets of such a path and a null unit are
    read back as the root joined with that path (with a logger, provided the
    path also converts to UTF-8 for the log). *)
Lemma FindXbox_roundtrip (root converted : path) (header rel : list Z) (s : sink) :
  marker_read disk root (marker_octets header rel) ->
  length header = 8%nat -> Forall is_unit rel -> Forall (survives char_is_signed) rel ->
  convert_u16string rel = inr converted ->
  (s <> None -> exists text, u8string_checked converted = inr text) ->
  result (FindXboxGamingRootPath char_is_signed disk root) s =
  Returns (Some (root </> converted)).
Proof.
  intros Hread Hh Hu Hs Hconv Hlog. unfold result.
  rewrite (FindXbox_after_read _ _ _ _ _ Hread).
  pose proof (decoded_relative_path_roundtrip char_is_signed header rel Hh Hu Hs) as Hrt.
  unfold decoded_relative_path in Hrt.
  assert (Hlen : length (marker_octets header rel) = (2 * (5 + length rel))%nat).
  { unfold marker_octets. rewrite !length_app, Hh. simpl.
    assert (Hl : forall us, length (utf16le_octets us) = (2 * length us)%nat)
      by (induction us; simpl; lia).
    rewrite Hl. lia. }
  destruct (parse_marker_even root (gamingRootFilePath_of root)
              (map (char_of_octet char_is_signed) (marker_octets header rel)) s)
    as (content & E & L & R).
  { rewrite length_map, Hlen. rewrite Nat2Z.inj_mul. apply Z.even_mul. }
  fold (result (parse_marker root (gamingRootFilePath_of root)
          (map (char_of_octet char_is_signed) (marker_octets header rel))) s).
  rewrite R. rewrite E in Hrt. injection Hrt as ->.
  rewrite length_map, Hlen in L.
  replace (2 * (5 + length rel) / 2)%nat with (5 + length rel)%nat in L
    by (apply Nat.div_unique_exact; lia).
  destruct (Z.ltb_spec (Z.of_nat (length content)) 5); [lia |].
  unfold conversion_outcome. rewrite Hconv.
  destruct s as [l|]; [| reflexivity]. cbn [attached].
  destruct (Hlog ltac:(discriminate)) as [text ->]. reflexivity.
Qed.
End FindXboxOutcomes.

(** C7.  For an even number of octets read from an existing marker file, the
    parser fails with the error built with the text "The file at ", the path
    of the marker file between double quotes and " is shorter than
    expected." whenever fewer than 10 octets were read, whatever the sink
    and the signedness of [char]; this is the same as the decoded content
    having at most 4 units.  With more than 4 units the parser proceeds to
    the relative path, the units between the header and the last unit: the
    outcome is the one the conversions of that path decide. *)
Theorem FindXbox_even_short_marker_fails `{PathOps} (char_is_signed : bool)
    (disk : Disk) (root : path) (octets : list Z) (s : sink) :
  marker_read disk root octets ->
  Z.even (Z.of_nat (length octets)) = true ->
  exists content,
    decode_content (map (char_of_octet char_is_signed) octets) = inr content /\
    (Z.of_nat (length octets) < 10 <-> Z.of_nat (length content) <= 4) /\
    (Z.of_nat (length octets) < 10 ->
       result (FindXboxGamingRootPath char_is_signed disk root) s =
       Throws (runtime_error
                 ("The file at " +:+ dq +:+ u8string (root </> u8path ".GamingRoot") +:+
                  dq +:+ " is shorter than expected."))) /\
    (4 < Z.of_nat (length content) ->
       result (FindXboxGamingRootPath char_is_signed disk root) s =
       conversion_outcome (attached s) root (relative_path_units content)).
Proof.
  intros Hread Heven.
  destruct (parse_marker_even root (gamingRootFilePath_of root)
              (map (char_of_octet char_is_signed) octets) s)
    as (content & E & L & R); [now rewrite length_map |].
  exists content. split; [exact E |].
  rewrite length_map in L.
  pose proof (even_length_half octets Heven) as Hhalf.
  assert (Hiff : Z.of_nat (length octets) < 10 <-> Z.of_nat (length content) <= 4) by lia.
  split; [exact Hiff |].
  unfold result in *. rewrite (FindXbox_after_read _ _ _ _ _ Hread), R.
  split; intros Hc.
  - destruct (Z.ltb_spec (Z.of_nat (length content)) 5); [reflexivity | lia].
  - destruct (Z.ltb_spec (Z.of_nat (length content)) 5); [lia | reflexivity].
Qed.

Lemma FindXbox_even_short_marker_fails_witness :
  marker_read (disk_with_file marker_path (ReadToEnd [82; 71; 66; 88; 1; 0; 0; 0]))
    drive_root [82; 71; 66; 88; 1; 0; 0; 0] /\
  Z.even (Z.of_nat (length [82; 71; 66; 88; 1; 0; 0; 0])) = true /\
  exists content,
    decode_content (map (char_of_octet true) [82; 71; 66; 88; 1; 0; 0; 0]) = inr content /\
    (Z.of_nat (length [82; 71; 66; 88; 1; 0; 0; 0]) < 10 <-> Z.of_nat (length content) <= 4) /\
    (Z.of_nat (length [82; 71; 66; 88; 1; 0; 0; 0]) < 10 ->
       result (FindXboxGamingRootPath true
                 (disk_with_file marker_path (ReadToEnd [82; 71; 66; 88; 1; 0; 0; 0]))
                 drive_root) None =
       Throws (runtime_error
                 ("The file at " +:+ dq +:+ u8string (drive_root </> u8path ".GamingRoot") +:+
                  dq +:+ " is shorter than expected."))) /\
    (4 < Z.of_nat (length content) ->
       result (FindXboxGamingRootPath true
                 (disk_with_file marker_path (ReadToEnd [82; 71; 66; 88; 1; 0; 0; 0]))
                 drive_root) None =
       conversion_outcome (attached None) drive_root (relative_path_units content)).
Proof.
  assert (Hread : marker_read
            (disk_with_file marker_path (ReadToEnd [82; 71; 66; 88; 1; 0; 0; 0]))
            drive_root [82; 71; 66; 88; 1; 0; 0; 0]) by (split; reflexivity).
  split; [exact Hread |]. split; [reflexivity |].
  exact (FindXbox_even_short_marker_fails true _ drive_root _ None Hread eq_refl).
Defined.

(** The text of the error on the root [/mnt/d], character by character. *)
Example too_short_message_text :
  octets_of_string ("The file at " +:+ dq +:+ u8string (drive_root </> u8path ".GamingRoot") +:+
                    dq +:+ " is shorter than expected.") =
  octets_of_string "The file at " ++ [34] ++ octets_of_string "/mnt/d/.GamingRoot" ++ [34] ++
  octets_of_string " is shorter than expected.".
Proof. reflexivity. Qed.

(** C1.  The round trip fails where [char] is signed: the marker file made
    of the header, the UTF-16LE octets E9 00 of the one-unit path U+00E9 and
    the terminator is decoded as the path U+FFE9, and the function returns
    the root joined with that other path. *)
Theorem FindXbox_roundtrip_breaks_at_U00E9 :
  marker_octets GAMING_ROOT_HEADER [233] = [82; 71; 66; 88; 1; 0; 0; 0; 233; 0; 0; 0] /\
  decoded_relative_path true (marker_octets GAMING_ROOT_HEADER [233]) = inr [65513] /\
  result (FindXboxGamingRootPath true
            (disk_with_file marker_path (ReadToEnd (marker_octets GAMING_ROOT_HEADER [233])))
            drive_root) (Some []) =
  Returns (Some (drive_root </> path_of_u16string [65513])) /\
  drive_root </> path_of_u16string [65513] <> drive_root </> path_of_u16string [233].
Proof. repeat split; try reflexivity. vm_compute. discriminate. Qed.

(** C6.  With no sink attached, a marker file of one octet makes the parser
    dereference the null logger before it reaches its [throw]. *)
Theorem FindXbox_odd_marker_without_sink :
  marker_read (disk_with_file marker_path (ReadToEnd [82])) drive_root [82] /\
  result (FindXboxGamingRootPath true (disk_with_file marker_path (ReadToEnd [82]))
            drive_root) None = NullDeref /\
  result (FindXboxGamingRootPath true (disk_with_file marker_path (ReadToEnd [82]))
            drive_root) (Some []) =
  Throws (runtime_error (odd_length_message (gamingRootFilePath_of drive_root))).
Proof. repeat split; reflexivity. Qed.

(** *** Absence of the marker *)

Section FindXboxAbsent.
Context `{PathOps}.
Variable char_is_signed : bool.
Variable disk : Disk.

(** X9.  No regular file at the marker path: the function returns the empty
    optional, and the sink is left as it was. *)
Lemma FindXbox_not_regular (root : path) (s : sink) :
  is_regular_file disk (gamingRootFilePath_of root) = inr false ->
  FindXboxGamingRootPath char_is_signed disk root s = (Returns None, s).
Proof.
  intros Hreg. unfold FindXboxGamingRootPath.
  erewrite bind_returns by (apply read_marker_not_regular; exact Hreg). reflexivity.
Qed.

(** X10.  A failure that reaches the [catch] clause gives the empty optional:
    the status query threw, or the copy from the stream threw. *)
Lemma FindXbox_caught (root : path) (s : sink) (e : exception) :
  is_regular_file disk (gamingRootFilePath_of root) = inl e \/
  (is_regular_file disk (gamingRootFilePath_of root) = inr true /\
   copied (ifstream_copy disk (gamingRootFilePath_of root)) = inl e) ->
  result (FindXboxGamingRootPath char_is_signed disk root) s = Returns None.
Proof.
  intros Hfail. unfold result, FindXboxGamingRootPath, read_marker. run.
  destruct Hfail as [-> | [-> ->]]; destruct s; reflexivity.
Qed.

(** A failure that does not throw is not caught: when the stream cannot be
    opened, or ends at a read error before 10 octets with an even count,
    the function goes on to parse what it has and throws. *)
Lemma FindXbox_open_failure_throws (root : path) (s : sink) :
  is_regular_file disk (gamingRootFilePath_of root) = inr true ->
  ifstream_copy disk (gamingRootFilePath_of root) = OpenFailed ->
  result (FindXboxGamingRootPath char_is_signed disk root) s =
  Throws (runtime_error (too_short_message (gamingRootFilePath_of root))).
Proof.
  intros Hreg Hopen.
  assert (Hread : marker_read disk root []) by (split; [exact Hreg | now rewrite Hopen]).
  unfold result. rewrite (FindXbox_after_read _ _ _ _ _ Hread).
  destruct (parse_marker_even root (gamingRootFilePath_of root) [] s eq_refl)
    as (content & E & L & R).
  simpl in E. injection E as <-. exact R.
Qed.
End FindXboxAbsent.

(** C8.  A marker file that is a regular file but cannot be opened for
    reading: the stream fails without an exception, nothing is copied, and
    the function throws "shorter than expected" instead of returning the
    empty optional, with a sink and without one. *)
Theorem FindXbox_unreadable_marker_throws :
  is_regular_file (disk_with_file marker_path OpenFailed)
    (gamingRootFilePath_of drive_root) = inr true /\
  ifstream_copy (disk_with_file marker_path OpenFailed)
    (gamingRootFilePath_of drive_root) = OpenFailed /\
  result (FindXboxGamingRootPath true (disk_with_file marker_path OpenFailed) drive_root)
    (Some []) =
  Throws (runtime_error (too_short_message (gamingRootFilePath_of drive_root))) /\
  result (FindXboxGamingRootPath true (disk_with_file marker_path OpenFailed) drive_root)
    None =
  Throws (runtime_error (too_short_message (gamingRootFilePath_of drive_root))).
Proof. repeat split; reflexivity. Qed.

(** ** The registry accessor *)

Lemma GetRegistryRootKey_pure (rootKey : string) (s : sink) :
  GetRegistryRootKey rootKey s = (result (GetRegistryRootKey rootKey) s, s).
Proof.
  unfold result, GetRegistryRootKey.
  repeat (match goal with |- context [String.eqb ?a ?b] => destruct (String.eqb a b) end;
          [reflexivity |]).
  reflexivity.
Qed.

Lemma GetRegistryRootKey_sink_independent (rootKey : string) (s s' : sink) :
  result (GetRegistryRootKey rootKey) s = result (GetRegistryRootKey rootKey) s'.
Proof.
  unfold result, GetRegistryRootKey.
  repeat (match goal with |- context [String.eqb ?a ?b] => destruct (String.eqb a b) end;
          [reflexivity |]).
  reflexivity.
Qed.

Section RegKeyStringValueFacts.
Variable os : Win32.
Variables rootKey subkey value : string.
Variable hKey : HKEY.

(** Running [RegKeyStringValue] with a sink attached, as a function of
    what the two lookups report. *)
Lemma RegKeyStringValue_with_sink (l : list (level * string)) :
  result (GetRegistryRootKey rootKey) (Some l) = Returns hKey ->
  result (RegKeyStringValue os rootKey subkey value) (Some l) =
  if status_of (first_lookup os hKey subkey value) =? ERROR_SUCCESS
  then Returns (FromWinWide os (c_str (buffer_of (first_lookup os hKey subkey value))))
  else if written_past_wstr (second_lookup os hKey subkey value)
  then BufferOverrun
  else if status_of (second_lookup os hKey subkey value) =? ERROR_SUCCESS
  then Returns (FromWinWide os (c_str (buffer_of (second_lookup os hKey subkey value))))
  else Returns "".
Proof.
  intros Hroot. unfold result at 1, RegKeyStringValue.
  erewrite bind_returns by (rewrite GetRegistryRootKey_pure, Hroot; reflexivity).
  unfold second_lookup, first_lookup, status_of, buffer_of, len_of, ERROR_SUCCESS.
  run.
  destruct (RegGetValue os hKey _ _ (Z.lor RRF_RT_REG_SZ RRF_SUBKEY_WOW6432KEY) _ _)
    as [[st1 b1] l1]; simpl.
  destruct (st1 =? 0) eqn:E1; simpl; rewrite ?E1; [reflexivity |].
  destruct (RegGetValue os hKey _ _ (Z.lor RRF_RT_REG_SZ RRF_SUBKEY_WOW6464KEY) _ _)
    as [[st2 b2] l2]; simpl.
  unfold ERROR_SUCCESS.
  destruct ((st2 =? 0) && (MAX_PATH <? Z.of_nat (length b2))) eqn:Eover; simpl;
    [reflexivity |].
  destruct (st2 =? 0) eqn:E2; simpl; rewrite ?E2; reflexivity.
Qed.

(** Without a sink, the call is defined only when the first lookup
    succeeds: the retry path dereferences the null logger. *)
Lemma RegKeyStringValue_without_sink :
  result (GetRegistryRootKey rootKey) None = Returns hKey ->
  result (RegKeyStringValue os rootKey subkey value) None =
  if status_of (first_lookup os hKey subkey value) =? ERROR_SUCCESS
  then Returns (FromWinWide os (c_str (buffer_of (first_lookup os hKey subkey value))))
  else NullDeref.
Proof.
  intros Hroot. unfold result at 1, RegKeyStringValue.
  erewrite bind_returns by (rewrite GetRegistryRootKey_pure, Hroot; reflexivity).
  unfold first_lookup, status_of, buffer_of, ERROR_SUCCESS.
  run.
  destruct (RegGetValue os hKey _ _ (Z.lor RRF_RT_REG_SZ RRF_SUBKEY_WOW6432KEY) _ _)
    as [[st1 b1] l1]; simpl.
  destruct (st1 =? 0) eqn:E1; simpl; rewrite ?E1; reflexivity.
Qed.
End RegKeyStringValueFacts.

(** C4 (as amended).  With a sink attached and a valid root key name,
    [RegKeyStringValue] returns the value of the 32-bit view when that
    lookup succeeds; else the value of the 64-bit view when the one retry
    succeeds and what it stored fits the buffer of [MAX_PATH] units; and when
    both lookups fail the empty string, whatever the two failure statuses are
    (not found, access denied or any other): no failure status is thrown. *)
Theorem RegKeyStringValue_retries_then_returns_empty (os : Win32)
    (rootKey subkey value : string) (hKey : HKEY) (l : list (level * string)) :
  result (GetRegistryRootKey rootKey) (Some l) = Returns hKey ->
  (status_of (first_lookup os hKey subkey value) = ERROR_SUCCESS ->
   result (RegKeyStringValue os rootKey subkey value) (Some l) =
   Returns (FromWinWide os (c_str (buffer_of (first_lookup os hKey subkey value))))) /\
  (status_of (first_lookup os hKey subkey value) <> ERROR_SUCCESS ->
   status_of (second_lookup os hKey subkey value) = ERROR_SUCCESS ->
   Z.of_nat (length (buffer_of (second_lookup os hKey subkey value))) <= MAX_PATH ->
   result (RegKeyStringValue os rootKey subkey value) (Some l) =
   Returns (FromWinWide os (c_str (buffer_of (second_lookup os hKey subkey value))))) /\
  (status_of (first_lookup os hKey subkey value) <> ERROR_SUCCESS ->
   status_of (second_lookup os hKey subkey value) <> ERROR_SUCCESS ->
   result (RegKeyStringValue os rootKey subkey value) (Some l) = Returns "").
Proof.
  intros Hroot.
  rewrite (RegKeyStringValue_with_sink os rootKey subkey value hKey l Hroot).
  unfold written_past_wstr, status_of, buffer_of.
  destruct (second_lookup os hKey subkey value) as [[st2 b2] l2]. cbn [fst snd].
  repeat split.
  - intros ->. reflexivity.
  - intros H1 -> Hfits. apply Z.eqb_neq in H1. rewrite H1.
    destruct (Z.ltb_spec MAX_PATH (Z.of_nat (length b2))); [lia | reflexivity].
  - intros H1 H2. apply Z.eqb_neq in H1, H2. rewrite H1, H2. reflexivity.
Qed.

(** The retry after [ERROR_MORE_DATA] is given the size of the value, not of
    the buffer: a value of 300 units recorded in both views is stored past
    the end of [wstr]. *)
Example RegKeyStringValue_long_value_overruns :
  status_of (first_lookup (win32_of_registry registry_long_value) HKEY_LOCAL_MACHINE
               "Software\Bethesda\Skyrim" "Installed Path") = ERROR_MORE_DATA /\
  len_of (first_lookup (win32_of_registry registry_long_value) HKEY_LOCAL_MACHINE
            "Software\Bethesda\Skyrim" "Installed Path") = 602 /\
  length (buffer_of (second_lookup (win32_of_registry registry_long_value)
                       HKEY_LOCAL_MACHINE "Software\Bethesda\Skyrim" "Installed Path")) =
  301%nat /\
  result (RegKeyStringValue (win32_of_registry registry_long_value) "HKEY_LOCAL_MACHINE"
            "Software\Bethesda\Skyrim" "Installed Path") (Some []) = BufferOverrun.
Proof. repeat split; reflexivity. Qed.

Lemma RegKeyStringValue_retries_then_returns_empty_witness :
  result (GetRegistryRootKey "HKEY_LOCAL_MACHINE") (Some []) = Returns HKEY_LOCAL_MACHINE /\
  status_of (first_lookup (win32_of_registry registry_example) HKEY_LOCAL_MACHINE
               "Software\Bethesda\Skyrim" "No Such Value") = ERROR_FILE_NOT_FOUND /\
  status_of (second_lookup (win32_of_registry registry_example) HKEY_LOCAL_MACHINE
               "Software\Bethesda\Skyrim" "No Such Value") = ERROR_FILE_NOT_FOUND /\
  result (RegKeyStringValue (win32_of_registry registry_example) "HKEY_LOCAL_MACHINE"
            "Software\Bethesda\Skyrim" "No Such Value") (Some []) = Returns "".
Proof.
  split; [reflexivity |]. split; [reflexivity |]. split; [reflexivity |].
  apply (proj2 (proj2 (RegKeyStringValue_retries_then_returns_empty
                         (win32_of_registry registry_example) "HKEY_LOCAL_MACHINE"
                         "Software\Bethesda\Skyrim" "No Such Value" HKEY_LOCAL_MACHINE []
                         eq_refl)));
    vm_compute; discriminate.
Defined.

(** C4 (as stated) fails: for a caller without access rights both lookups
    report [ERROR_ACCESS_DENIED], and the function returns the empty string
    all the same; no error is surfaced. *)
Lemma RegKeyStringValue_access_denied_returns_empty :
  status_of (first_lookup (win32_of_registry registry_locked) HKEY_LOCAL_MACHINE
               "Software\Bethesda\Skyrim" "Installed Path") = ERROR_ACCESS_DENIED /\
  status_of (second_lookup (win32_of_registry registry_locked) HKEY_LOCAL_MACHINE
               "Software\Bethesda\Skyrim" "Installed Path") = ERROR_ACCESS_DENIED /\
  result (RegKeyStringValue (win32_of_registry registry_locked) "HKEY_LOCAL_MACHINE"
            "Software\Bethesda\Skyrim" "Installed Path") (Some []) = Returns "".
Proof. repeat split; reflexivity. Qed.

(** C3.  Two emission sites do not check the logger.  A value recorded in
    the 64-bit view only is found with a sink attached, and with none the
    retry dereferences the null logger; a marker file of three octets is
    refused by an exception with a sink attached, and with none the parser
    dereferences the null logger. *)
Theorem unchecked_logger_sites_change_the_result :
  result (RegKeyStringValue (win32_of_registry registry_example) "HKEY_LOCAL_MACHINE"
            "Software\Bethesda\Skyrim" "Installed Path") (Some []) =
  Returns "C:\Games\Skyrim" /\
  result (RegKeyStringValue (win32_of_registry registry_example) "HKEY_LOCAL_MACHINE"
            "Software\Bethesda\Skyrim" "Installed Path") None = NullDeref /\
  result (FindXboxGamingRootPath true (disk_with_file marker_path (ReadToEnd [82; 71; 66]))
            drive_root) (Some []) =
  Throws (runtime_error (odd_length_message (gamingRootFilePath_of drive_root))) /\
  result (FindXboxGamingRootPath true (disk_with_file marker_path (ReadToEnd [82; 71; 66]))
            drive_root) None = NullDeref.
Proof. repeat split; reflexivity. Qed.

(** *** GetRegistrySubKeys *)

Lemma enumerate_subkeys_S (fuel : nat) (os : Win32) (rootKey subKey : string)
    (hKey : HKEY) (subKeyIndex : Z) (subKeyName : list Z) (len : Z)
    (subKeyNames : list string) :
  enumerate_subkeys (S fuel) os rootKey subKey hKey subKeyIndex subKeyName len subKeyNames =
  let '(status, subKeyName, len) := RegEnumKeyEx os hKey subKeyIndex subKeyName len in
  if negb (status =? ERROR_SUCCESS) && negb (status =? ERROR_NO_MORE_ITEMS) then
    mthrow (system_error (GetLastError os) (subkeys_error_message rootKey subKey))
  else
    let subKeyNames := subKeyNames ++ [FromWinWide os (c_str subKeyName)] in
    let subKeyIndex := (subKeyIndex + 1) mod 2 ^ 32 in
    if status =? ERROR_SUCCESS then
      enumerate_subkeys fuel os rootKey subKey hKey subKeyIndex subKeyName len subKeyNames
    else mret subKeyNames.
Proof. reflexivity. Qed.

(** A status other than success and "no more items" ends the enumeration
    by an exception whose text carries the key path. *)
Lemma enumerate_subkeys_other_status (fuel : nat) (os : Win32) (rootKey subKey : string)
    (hKey : HKEY) (index : Z) (name : list Z) (len : Z) (names : list string) (s : sink) :
  status_of (RegEnumKeyEx os hKey index name len) <> ERROR_SUCCESS ->
  status_of (RegEnumKeyEx os hKey index name len) <> ERROR_NO_MORE_ITEMS ->
  enumerate_subkeys (S fuel) os rootKey subKey hKey index name len names s =
  (Throws (system_error (GetLastError os) (subkeys_error_message rootKey subKey)), s).
Proof.
  rewrite enumerate_subkeys_S. unfold status_of.
  destruct (RegEnumKeyEx os hKey index name len) as [[status name'] len']; simpl.
  intros H1 H2. apply Z.eqb_neq in H1, H2. rewrite H1, H2. reflexivity.
Qed.

(** Whatever the system does with the name buffer, a key that opens and
    has no child key gives one entry, not the empty sequence: the first call
    reports "no more items" and the buffer is pushed all the same. *)
Lemma GetRegistrySubKeys_childless_key (fuel : nat) (os : Win32)
    (rootKey subKey : string) (root hKey : HKEY) (s : sink) :
  result (GetRegistryRootKey rootKey) s = Returns root ->
  RegOpenKeyEx os root (c_str (ToWinWide os subKey)) KEY_ENUMERATE_SUB_KEYS =
    (ERROR_SUCCESS, hKey) ->
  status_of (RegEnumKeyEx os hKey 0 (zero_wstring MAX_PATH) MAX_PATH) =
    ERROR_NO_MORE_ITEMS ->
  result (GetRegistrySubKeys (S fuel) os rootKey subKey) s =
  Returns [FromWinWide os
             (c_str (buffer_of (RegEnumKeyEx os hKey 0 (zero_wstring MAX_PATH) MAX_PATH)))].
Proof.
  intros Hroot Hopen Henum. unfold result at 1, GetRegistrySubKeys.
  unfold bind at 1.
  destruct (log_if_present_returns lvl_trace
              ("Getting subkey names for registry key and subkey: " +:+ rootKey +:+ ", " +:+
               subKey) s) as (s1 & -> & _).
  unfold bind at 1. rewrite GetRegistryRootKey_pure.
  rewrite (GetRegistryRootKey_sink_independent rootKey s1 s), Hroot, Hopen.
  change (negb (ERROR_SUCCESS =? ERROR_SUCCESS)) with false. cbv iota beta.
  rewrite enumerate_subkeys_S. unfold status_of, buffer_of in *.
  destruct (RegEnumKeyEx os hKey 0 (zero_wstring MAX_PATH) MAX_PATH) as [[status name] len].
  simpl in Henum. subst status. reflexivity.
Qed.

(** The entry pushed at "no more items": whenever the loop returns, its
    result has one entry more than the calls that succeeded.  Against a key
    of the registry with children [cs], started at index [i] with
    [length names] entries, a normal return has
    [length names + (length cs - i) + 1] entries. *)
Lemma enumerate_subkeys_registry_length (r : Registry) (rootKey subKey : string)
    (root : HKEY) (subkey : list Z) (cs : list (list Z)) :
  reg_keys r !! subkey = Some cs ->
  Z.of_nat (length cs) < 2 ^ 32 ->
  forall fuel i name len names s out s',
    (i <= length cs)%nat ->
    enumerate_subkeys fuel (win32_of_registry r) rootKey subKey (HKEY_opened root subkey)
      (Z.of_nat i) name len names s = (Returns out, s') ->
    length out = (length names + (length cs - i) + 1)%nat.
Proof.
  intros Hkey Hsmall. induction fuel as [|fuel IH]; intros i name len names s out s' Hi Hrun.
  - discriminate.
  - rewrite enumerate_subkeys_S in Hrun.
    cbn [RegEnumKeyEx win32_of_registry] in Hrun.
    unfold registry_enum_key in Hrun. rewrite Hkey, Nat2Z.id in Hrun.
    destruct (cs !! i) as [child|] eqn:Hchild.
    + apply lookup_lt_Some in Hchild.
      destruct (Z.of_nat (length child) + 1 <=? len).
      * change (negb (ERROR_SUCCESS =? ERROR_SUCCESS) &&
                negb (ERROR_SUCCESS =? ERROR_NO_MORE_ITEMS)) with false in Hrun.
        change (ERROR_SUCCESS =? ERROR_SUCCESS) with true in Hrun.
        cbv iota beta zeta in Hrun.
        replace ((Z.of_nat i + 1) mod 2 ^ 32) with (Z.of_nat (S i)) in Hrun
          by (rewrite Z.mod_small; lia).
        apply IH in Hrun; [| lia]. rewrite length_app in Hrun. simpl in Hrun. lia.
      * discriminate.
    + apply lookup_ge_None in Hchild.
      change (negb (ERROR_NO_MORE_ITEMS =? ERROR_SUCCESS) &&
              negb (ERROR_NO_MORE_ITEMS =? ERROR_NO_MORE_ITEMS)) with false in Hrun.
      change (ERROR_NO_MORE_ITEMS =? ERROR_SUCCESS) with false in Hrun.
      cbv iota beta zeta in Hrun. unfold mret in Hrun.
      injection Hrun as <- _. rewrite length_app. simpl. lia.
Qed.

(** For an existing key with [n] children, no run of [GetRegistrySubKeys]
    returns [n] entries: a normal return has [n + 1]. *)
Lemma GetRegistrySubKeys_registry_length (r : Registry) (rootKey subKey : string)
    (cs : list (list Z)) (fuel : nat) (s : sink) (out : list string) :
  reg_access_denied r = false ->
  reg_keys r !! c_str (widen subKey) = Some cs ->
  Z.of_nat (length cs) < 2 ^ 32 ->
  result (GetRegistrySubKeys fuel (win32_of_registry r) rootKey subKey) s = Returns out ->
  length out = S (length cs).
Proof.
  intros Hacc Hkey Hsmall. unfold result, GetRegistrySubKeys.
  unfold bind at 1.
  destruct (log_if_present_returns lvl_trace
              ("Getting subkey names for registry key and subkey: " +:+ rootKey +:+ ", " +:+
               subKey) s) as (s1 & -> & _).
  unfold bind at 1. rewrite GetRegistryRootKey_pure.
  destruct (result (GetRegistryRootKey rootKey) s1) as [root | e | | |]; try discriminate.
  cbn [RegOpenKeyEx win32_of_registry ToWinWide MultiByteToWideChar].
  unfold registry_open_key. rewrite Hacc, Hkey.
  change (negb (ERROR_SUCCESS =? ERROR_SUCCESS)) with false. cbv iota beta.
  destruct (enumerate_subkeys fuel (win32_of_registry r) rootKey subKey
              (HKEY_opened root (c_str (widen subKey))) 0 (zero_wstring MAX_PATH) MAX_PATH
              [] s1) as [o' s2] eqn:Hrun.
  simpl. intros ->.
  change 0 with (Z.of_nat 0) in Hrun.
  apply (enumerate_subkeys_registry_length r rootKey subKey root _ cs Hkey Hsmall) in Hrun;
    [| lia].
  simpl in Hrun. lia.
Qed.

(** C2.  The key [Software\Bethesda] has the single child key [Skyrim], and
    [GetRegistrySubKeys] returns two entries for it: the name left in the
    buffer is pushed once more when the store reports "no more items". *)
Theorem GetRegistrySubKeys_returns_an_extra_entry (fuel : nat) :
  reg_keys registry_example !! c_str (widen "Software\Bethesda") = Some [widen "Skyrim"] /\
  result (GetRegistrySubKeys (S (S fuel)) (win32_of_registry registry_example)
            "HKEY_LOCAL_MACHINE" "Software\Bethesda") (Some []) =
  Returns ["Skyrim"; "Skyrim"] /\
  result (GetRegistrySubKeys (S (S fuel)) (win32_of_registry registry_example)
            "HKEY_LOCAL_MACHINE" "Software\Bethesda\Skyrim") (Some []) =
  Returns [""].
Proof. repeat split; reflexivity. Qed.

(** The buffer length is not restored between calls: after a name of 8
    units the room left is 8, the next name of 8 units does not fit, and the
    call throws. *)
Example GetRegistrySubKeys_second_name_does_not_fit :
  result (GetRegistrySubKeys 3
            (win32_of_registry
               {| reg_view32 := ∅; reg_view64 := ∅;
                  reg_keys := {[ widen "Software" := [widen "Bethesda"; widen "Obsidian"] ]};
                  reg_access_denied := false |})
            "HKEY_LOCAL_MACHINE" "Software") (Some []) =
  Throws (system_error 0 (subkeys_error_message "HKEY_LOCAL_MACHINE" "Software")).
Proof. reflexivity. Qed.

(** ** CompareFilenames *)

(** C9 (as stated) fails: the octet FF is not UTF-8, and both variants
    compare it with ["a"] and return a result. *)
Lemma CompareFilenames_accepts_ill_formed_text :
  utf8_valid (string_of_octets [255]) = false /\
  result (CompareFilenames_icu icu_ascii (string_of_octets [255]) "a") None = Returns 1 /\
  result (CompareFilenames_win32 (win32_of_registry registry_example)
            (string_of_octets [255]) "a") None = Returns 1.
Proof. repeat split; reflexivity. Qed.

(** C9 (as amended).  No variant of [CompareFilenames] examines whether its
    inputs are well-formed text, and none touches the sink.  The ICU variant
    returns the library's comparison of the two converted strings for every
    pair of inputs.  The Win32 variant returns -1, 0 or 1 as the system
    comparison reports less, equal or greater, and throws
    [invalid_argument] exactly when the system comparison reports anything
    else. *)
Theorem CompareFilenames_never_validates (icu : ICU) (os : Win32) (lhs rhs : string)
    (s : sink) :
  CompareFilenames_icu icu lhs rhs s =
  (Returns (caseCompare icu (fromUTF8 icu lhs) (fromUTF8 icu rhs)), s) /\
  CompareFilenames_win32 os lhs rhs s =
  (let reported :=
     CompareStringOrdinal os (c_str (ToWinWide os lhs)) (c_str (ToWinWide os rhs)) true in
   if reported =? CSTR_LESS_THAN then Returns (-1)
   else if reported =? CSTR_EQUAL then Returns 0
   else if reported =? CSTR_GREATER_THAN then Returns 1
   else Throws (invalid_argument invalid_filename_message), s) /\
  (result (CompareFilenames_win32 os lhs rhs) s =
   Throws (invalid_argument invalid_filename_message) <->
   ~ In (CompareStringOrdinal os (c_str (ToWinWide os lhs)) (c_str (ToWinWide os rhs)) true)
        [CSTR_LESS_THAN; CSTR_EQUAL; CSTR_GREATER_THAN]).
Proof.
  split; [reflexivity |].
  unfold result, CompareFilenames_win32.
  set (reported := CompareStringOrdinal os _ _ true).
  unfold CSTR_LESS_THAN, CSTR_EQUAL, CSTR_GREATER_THAN. cbv zeta.
  destruct (Z.eqb_spec reported 1) as [-> | H1].
  { split; [reflexivity |]. simpl. split; [discriminate | intros Hn; exfalso; auto]. }
  destruct (Z.eqb_spec reported 2) as [-> | H2].
  { split; [reflexivity |]. simpl. split; [discriminate | intros Hn; exfalso; auto]. }
  destruct (Z.eqb_spec reported 3) as [-> | H3].
  { split; [reflexivity |]. simpl. split; [discriminate | intros Hn; exfalso; auto]. }
  split; [reflexivity |]. simpl. split; [| reflexivity].
  intros _ [E | [E | [E | []]]]; congruence.
Qed.

(** ** Well-known directories *)

Lemma string_is_empty_app_r (p q : string) :
  string_is_empty q = false -> string_is_empty (p +:+ q) = false.
Proof. destruct p; simpl; auto. Qed.

Lemma posix_append_config_not_empty (home : string) :
  string_is_empty (posix_append home ".config") = false.
Proof.
  unfold posix_append. simpl starts_with_slash.
  destruct (string_is_empty home || ends_with_slash home);
    now apply string_is_empty_app_r.
Qed.

Lemma getExecutableDirectory_posix_outcome `{PathOps} (sys : Posix) (s : sink) :
  result (getExecutableDirectory_posix sys) s =
  (if fst (readlink sys "/proc/self/exe" PATH_MAX) <? 0
   then Throws (system_error (fst (readlink sys "/proc/self/exe" PATH_MAX)) exe_error_message)
   else Returns (parent_path (u8path
          (String.substring 0 (Z.to_nat (fst (readlink sys "/proc/self/exe" PATH_MAX)))
             (snd (readlink sys "/proc/self/exe" PATH_MAX)))))).
Proof.
  unfold result, getExecutableDirectory_posix.
  destruct (readlink sys "/proc/self/exe" PATH_MAX) as [count buffer]. simpl.
  destruct (count <? 0); [| reflexivity]. run. now destruct s.
Qed.

(** C5 (as stated) fails: with both variables unset and an executable path
    that cannot be resolved the function throws; and a variable set to the
    empty string wins with the empty path. *)
Lemma getLocalAppDataPath_posix_can_fail :
  getenv posix_bare "XDG_CONFIG_HOME" = None /\
  getenv posix_bare "HOME" = None /\
  result (getLocalAppDataPath_posix posix_bare) None =
  Throws (system_error (-1) exe_error_message) /\
  result (getLocalAppDataPath_posix posix_empty_xdg) None = Returns (u8path "") /\
  path_is_empty (u8path "") = true.
Proof. repeat split; reflexivity. Qed.

(** C5 (as amended).  On the build without [_WIN32], [getLocalAppDataPath]
    returns the value of [XDG_CONFIG_HOME] when that variable is set; else
    [HOME] joined with [.config], a non-empty path, when [HOME] is set; else
    it behaves as [getExecutableDirectory], returning its path or throwing
    its error.  So it throws only when both variables are unset and the
    executable's path cannot be read, and then with that call's error. *)
Theorem getLocalAppDataPath_posix_chain (sys : Posix) (s : sink) :
  (forall xdg, getenv sys "XDG_CONFIG_HOME" = Some xdg ->
     getLocalAppDataPath_posix sys s = (Returns (u8path xdg), s)) /\
  (forall home, getenv sys "XDG_CONFIG_HOME" = None -> getenv sys "HOME" = Some home ->
     getLocalAppDataPath_posix sys s = (Returns (u8path home </> u8path ".config"), s) /\
     path_is_empty (u8path home </> u8path ".config") = false) /\
  (getenv sys "XDG_CONFIG_HOME" = None -> getenv sys "HOME" = None ->
     getLocalAppDataPath_posix sys s = getExecutableDirectory_posix sys s) /\
  (forall e, result (getLocalAppDataPath_posix sys) s = Throws e ->
     getenv sys "XDG_CONFIG_HOME" = None /\ getenv sys "HOME" = None /\
     fst (readlink sys "/proc/self/exe" PATH_MAX) < 0 /\
     e = system_error (fst (readlink sys "/proc/self/exe" PATH_MAX)) exe_error_message) /\
  ((exists p, result (getLocalAppDataPath_posix sys) s = Returns p) \/
   (exists e, result (getLocalAppDataPath_posix sys) s = Throws e)).
Proof.
  unfold getLocalAppDataPath_posix.
  split; [intros xdg ->; reflexivity |].
  split; [intros home -> ->; split;
            [reflexivity | apply posix_append_config_not_empty] |].
  split; [intros -> ->; reflexivity |].
  split.
  - intros e He.
    destruct (getenv sys "XDG_CONFIG_HOME"); [discriminate |].
    destruct (getenv sys "HOME"); [discriminate |].
    rewrite getExecutableDirectory_posix_outcome in He.
    destruct (Z.ltb_spec (fst (readlink sys "/proc/self/exe" PATH_MAX)) 0)
      as [Hneg | Hpos]; [| discriminate].
    injection He as <-. auto.
  - destruct (getenv sys "XDG_CONFIG_HOME"); [left; eexists; reflexivity |].
    destruct (getenv sys "HOME"); [left; eexists; reflexivity |].
    rewrite getExecutableDirectory_posix_outcome.
    destruct (fst (readlink sys "/proc/self/exe" PATH_MAX) <? 0);
      [right | left]; eexists; reflexivity.
Qed.

Lemma getLocalAppDataPath_posix_chain_witness :
  getenv posix_home "XDG_CONFIG_HOME" = None /\
  getenv posix_home "HOME" = Some "/home/loot" /\
  getLocalAppDataPath_posix posix_home None = (Returns (u8path "/home/loot/.config"), None) /\
  path_is_empty (u8path "/home/loot" </> u8path ".config") = false.
Proof.
  split; [reflexivity |]. split; [reflexivity |].
  exact (proj1 (proj2 (getLocalAppDataPath_posix_chain posix_home None))
           "/home/loot" eq_refl eq_refl).
Defined.

(** Where [_WIN32] is defined there is no chain of candidates: the function
    returns the known folder, or throws when the system does not report it. *)
Lemma getLocalAppDataPath_win32_outcome `{PathOps} (os : Win32) (s : sink) :
  getLocalAppDataPath_win32 os s =
  (if fst (SHGetKnownFolderPath_LocalAppData os) =? S_OK
   then Returns (path_of_u16string (snd (SHGetKnownFolderPath_LocalAppData os)))
   else Throws (system_error (GetLastError os) "Failed to get %LOCALAPPDATA% path."), s).
Proof.
  unfold getLocalAppDataPath_win32.
  destruct (SHGetKnownFolderPath_LocalAppData os) as [hr folder]. simpl.
  destruct (hr =? S_OK); reflexivity.
Qed.

(** ** Where the sink makes no difference *)

(** The enumeration loop neither reads nor writes the sink. *)
Lemma enumerate_subkeys_pure (os : Win32) (rootKey subKey : string) (hKey : HKEY) :
  forall fuel index name len names s s',
    enumerate_subkeys fuel os rootKey subKey hKey index name len names s =
    (result (enumerate_subkeys fuel os rootKey subKey hKey index name len names) s', s).
Proof.
  induction fuel as [|fuel IH]; intros index name len names s s'; [reflexivity |].
  unfold result. rewrite !enumerate_subkeys_S.
  destruct (RegEnumKeyEx os hKey index name len) as [[status name'] len'].
  destruct (negb (status =? ERROR_SUCCESS) && negb (status =? ERROR_NO_MORE_ITEMS));
    [reflexivity |].
  cbv zeta. destruct (status =? ERROR_SUCCESS); [apply IH | reflexivity].
Qed.

(** X4.  Every emission site of [GetRegistrySubKeys] checks the logger: its
    result is the same from any two sinks. *)
Lemma GetRegistrySubKeys_sink_independent (fuel : nat) (os : Win32)
    (rootKey subKey : string) (s s' : sink) :
  result (GetRegistrySubKeys fuel os rootKey subKey) s =
  result (GetRegistrySubKeys fuel os rootKey subKey) s'.
Proof.
  assert (Hrun : forall s0,
    result (GetRegistrySubKeys fuel os rootKey subKey) s0 =
    match result (GetRegistryRootKey rootKey) None with
    | Returns root =>
        if negb (fst (RegOpenKeyEx os root (c_str (ToWinWide os subKey))
                        KEY_ENUMERATE_SUB_KEYS) =? ERROR_SUCCESS)
        then Returns []
        else result (enumerate_subkeys fuel os rootKey subKey
                       (snd (RegOpenKeyEx os root (c_str (ToWinWide os subKey))
                               KEY_ENUMERATE_SUB_KEYS))
                       0 (zero_wstring MAX_PATH) MAX_PATH []) None
    | Throws e => Throws e
    | NullDeref => NullDeref
    | OutOfFuel => OutOfFuel
    | BufferOverrun => BufferOverrun
    end).
  { intros s0. unfold result at 1, GetRegistrySubKeys. unfold bind at 1.
    destruct (log_if_present_returns lvl_trace
                ("Getting subkey names for registry key and subkey: " +:+ rootKey +:+
                 ", " +:+ subKey) s0) as (s1 & -> & _).
    unfold bind at 1. rewrite GetRegistryRootKey_pure.
    rewrite (GetRegistryRootKey_sink_independent rootKey s1 None).
    destruct (result (GetRegistryRootKey rootKey) None) as [root | e | | |];
      try reflexivity.
    destruct (RegOpenKeyEx os root (c_str (ToWinWide os subKey)) KEY_ENUMERATE_SUB_KEYS)
      as [status hKey]. cbn [fst snd].
    destruct (negb (status =? ERROR_SUCCESS)).
    - run. now destruct s1.
    - now rewrite (enumerate_subkeys_pure os rootKey subKey hKey fuel _ _ _ _ s1 None). }
  now rewrite (Hrun s), (Hrun s').
Qed.

(** Against a key of the registry with children [cs], the loop ends within
    [length cs + 1] iterations. *)
Lemma enumerate_subkeys_registry_ends (r : Registry) (rootKey subKey : string)
    (root : HKEY) (subkey : list Z) (cs : list (list Z)) :
  reg_keys r !! subkey = Some cs ->
  Z.of_nat (length cs) < 2 ^ 32 ->
  forall fuel i name len names s,
    (i <= length cs)%nat -> (length cs - i < fuel)%nat ->
    result (enumerate_subkeys fuel (win32_of_registry r) rootKey subKey
              (HKEY_opened root subkey) (Z.of_nat i) name len names) s <> OutOfFuel.
Proof.
  intros Hkey Hsmall. induction fuel as [|fuel IH]; intros i name len names s Hi Hfuel;
    [lia |].
  unfold result. rewrite enumerate_subkeys_S.
  cbn [RegEnumKeyEx win32_of_registry].
  unfold registry_enum_key. rewrite Hkey, Nat2Z.id.
  destruct (cs !! i) as [child|] eqn:Hchild.
  - apply lookup_lt_Some in Hchild.
    destruct (Z.of_nat (length child) + 1 <=? len); [| discriminate].
    change (negb (ERROR_SUCCESS =? ERROR_SUCCESS) &&
            negb (ERROR_SUCCESS =? ERROR_NO_MORE_ITEMS)) with false.
    change (ERROR_SUCCESS =? ERROR_SUCCESS) with true.
    cbv iota beta zeta.
    replace ((Z.of_nat i + 1) mod 2 ^ 32) with (Z.of_nat (S i))
      by (rewrite Z.mod_small; lia).
    apply IH; lia.
  - discriminate.
Qed.

(** X12.  On an even number of octets the result is the same from any two
    sinks, provided the relative path read from the file, where it converts
    to a path, also converts to UTF-8: that conversion is made for the log
    alone. *)
Lemma FindXbox_even_sink_independent `{PathOps} (char_is_signed : bool) (disk : Disk)
    (root : path) (octets rel : list Z) (s s' : sink) :
  marker_read disk root octets ->
  Z.even (Z.of_nat (length octets)) = true ->
  decoded_relative_path char_is_signed octets = inr rel ->
  (forall converted, convert_u16string rel = inr converted ->
     exists text, u8string_checked converted = inr text) ->
  result (FindXboxGamingRootPath char_is_signed disk root) s =
  result (FindXboxGamingRootPath char_is_signed disk root) s'.
Proof.
  intros Hread Heven Hrel Hlog. unfold result.
  rewrite !(FindXbox_after_read _ _ _ _ _ Hread).
  destruct (parse_marker_even root (gamingRootFilePath_of root)
              (map (char_of_octet char_is_signed) octets) s)
    as (c & E & _ & R); [now rewrite length_map |].
  destruct (parse_marker_even root (gamingRootFilePath_of root)
              (map (char_of_octet char_is_signed) octets) s')
    as (c' & E' & _ & R'); [now rewrite length_map |].
  unfold result in R, R'. rewrite R, R'.
  rewrite E in E'. injection E' as <-.
  destruct (Z.of_nat (length c) <? 5); [reflexivity |].
  unfold decoded_relative_path in Hrel. rewrite E in Hrel. injection Hrel as ->.
  unfold conversion_outcome.
  destruct (convert_u16string rel) as [e | p] eqn:Hc; [reflexivity |].
  destruct (Hlog p eq_refl) as [text ->].
  destruct (attached s), (attached s'); reflexivity.
Qed.

(** With a logger, a path that does not convert to UTF-8 ends the function
    by the exception of that conversion; without one the same file gives the
    path. *)
Lemma FindXbox_log_conversion_changes_the_result `{PathOps} (char_is_signed : bool)
    (disk : Disk) (root converted : path) (octets rel : list Z) (e : exception)
    (l : list (level * string)) :
  marker_read disk root octets ->
  Z.even (Z.of_nat (length octets)) = true -> 10 <= Z.of_nat (length octets) ->
  decoded_relative_path char_is_signed octets = inr rel ->
  convert_u16string rel = inr converted -> u8string_checked converted = inl e ->
  result (FindXboxGamingRootPath char_is_signed disk root) (Some l) = Throws e /\
  result (FindXboxGamingRootPath char_is_signed disk root) None =
  Returns (Some (root </> converted)).
Proof.
  intros Hread Heven Hlong Hrel Hconv Hu8. unfold result.
  rewrite !(FindXbox_after_read _ _ _ _ _ Hread).
  destruct (parse_marker_even root (gamingRootFilePath_of root)
              (map (char_of_octet char_is_signed) octets) (Some l))
    as (c & E & L & R); [now rewrite length_map |].
  destruct (parse_marker_even root (gamingRootFilePath_of root)
              (map (char_of_octet char_is_signed) octets) None)
    as (c' & E' & _ & R'); [now rewrite length_map |].
  unfold result in R, R'. rewrite R, R'.
  rewrite E in E'. injection E' as <-.
  rewrite length_map in L. pose proof (even_length_half octets Heven) as Hhalf.
  destruct (Z.ltb_spec (Z.of_nat (length c)) 5); [lia |].
  unfold decoded_relative_path in Hrel. rewrite E in Hrel. injection Hrel as ->.
  unfold conversion_outcome. rewrite Hconv. cbn [attached]. now rewrite Hu8.
Qed.

(** A relative path that is not well-formed UTF-16 (here the lone surrogate
    D800) does not convert to a narrow path: the function throws the
    conversion's exception, with a logger and without one. *)
Example FindXbox_lone_surrogate_throws :
  convert_u16string [55296] =
    inl (filesystem_error
           "filesystem error: Cannot convert character sequence: Invalid or incomplete multibyte or wide character") /\
  result (FindXboxGamingRootPath true
            (disk_with_file marker_path
               (ReadToEnd [82; 71; 66; 88; 1; 0; 0; 0; 0; 216; 0; 0]))
            drive_root) None =
  Throws (filesystem_error
            "filesystem error: Cannot convert character sequence: Invalid or incomplete multibyte or wide character") /\
  result (FindXboxGamingRootPath true
            (disk_with_file marker_path
               (ReadToEnd [82; 71; 66; 88; 1; 0; 0; 0; 0; 216; 0; 0]))
            drive_root) (Some []) =
  Throws (filesystem_error
            "filesystem error: Cannot convert character sequence: Invalid or incomplete multibyte or wide character").
Proof. repeat split; reflexivity. Qed.

(** The scenario of the format: the header, the path [Games/Install] in
    UTF-16LE and the terminator, read at the root [/mnt/d]. *)
Example FindXbox_games_install :
  result (FindXboxGamingRootPath true
            (disk_with_file marker_path
               (ReadToEnd (marker_octets GAMING_ROOT_HEADER (widen "Games/Install"))))
            drive_root) None =
  Returns (Some (u8path "/mnt/d/Games/Install")).
Proof. reflexivity. Qed.

(** * Part III: further properties *)

(** ** The registry accessor *)

Lemma GetRegistryRootKey_unknown (rootKey : string) (s : sink) :
  ~ In rootKey root_key_names ->
  GetRegistryRootKey rootKey s = (Throws invalid_root_key, s).
Proof.
  intros Hnot. unfold GetRegistryRootKey, root_key_names in *.
  repeat match goal with
         | |- context [String.eqb rootKey ?n] =>
             destruct (String.eqb_spec rootKey n) as [-> | _];
             [exfalso; apply Hnot; simpl; tauto |]
         end.
  reflexivity.
Qed.

(** X1.  A root key name other than the five predefined ones makes both
    registry calls throw [invalid_argument], whatever the registry holds. *)
Theorem registry_calls_reject_unknown_root (os : Win32) (rootKey subkey value : string)
    (fuel : nat) (s : sink) :
  ~ In rootKey root_key_names ->
  result (RegKeyStringValue os rootKey subkey value) s = Throws invalid_root_key /\
  result (GetRegistrySubKeys fuel os rootKey subkey) s = Throws invalid_root_key.
Proof.
  intros Hnot. split.
  - unfold result, RegKeyStringValue.
    erewrite bind_throws by (apply GetRegistryRootKey_unknown; exact Hnot). reflexivity.
  - unfold result, GetRegistrySubKeys. unfold bind at 1.
    destruct (log_if_present_returns lvl_trace
                ("Getting subkey names for registry key and subkey: " +:+ rootKey +:+
                 ", " +:+ subkey) s) as (s1 & -> & _).
    erewrite bind_throws by (apply GetRegistryRootKey_unknown; exact Hnot). reflexivity.
Qed.

Lemma registry_calls_reject_unknown_root_witness :
  ~ In "HKLM" root_key_names /\
  result (RegKeyStringValue (win32_of_registry registry_example) "HKLM"
            "Software\Bethesda\Skyrim" "Installed Path") None = Throws invalid_root_key /\
  result (GetRegistrySubKeys 1 (win32_of_registry registry_example) "HKLM"
            "Software\Bethesda") None = Throws invalid_root_key.
Proof.
  assert (Hnot : ~ In "HKLM" root_key_names)
    by (simpl; intros [H | [H | [H | [H | [H | []]]]]]; discriminate H).
  split; [exact Hnot |].
  exact (registry_calls_reject_unknown_root (win32_of_registry registry_example) "HKLM"
           _ _ 1 None Hnot).
Defined.

(** X2.  When the key cannot be opened, whatever the status reported,
    [GetRegistrySubKeys] returns the empty sequence and does not throw. *)
Theorem GetRegistrySubKeys_unopened_key_is_empty (os : Win32) (rootKey subKey : string)
    (root : HKEY) (fuel : nat) (s : sink) :
  result (GetRegistryRootKey rootKey) s = Returns root ->
  fst (RegOpenKeyEx os root (c_str (ToWinWide os subKey)) KEY_ENUMERATE_SUB_KEYS)
    <> ERROR_SUCCESS ->
  result (GetRegistrySubKeys fuel os rootKey subKey) s = Returns [].
Proof.
  intros Hroot Hopen. unfold result at 1, GetRegistrySubKeys. unfold bind at 1.
  destruct (log_if_present_returns lvl_trace
              ("Getting subkey names for registry key and subkey: " +:+ rootKey +:+ ", " +:+
               subKey) s) as (s1 & -> & _).
  unfold bind at 1. rewrite GetRegistryRootKey_pure.
  rewrite (GetRegistryRootKey_sink_independent rootKey s1 s), Hroot.
  destruct (RegOpenKeyEx os root (c_str (ToWinWide os subKey)) KEY_ENUMERATE_SUB_KEYS)
    as [status hKey]. simpl in Hopen. apply Z.eqb_neq in Hopen. rewrite Hopen.
  run. now destruct s1.
Qed.

Lemma GetRegistrySubKeys_unopened_key_is_empty_witness :
  result (GetRegistryRootKey "HKEY_LOCAL_MACHINE") None = Returns HKEY_LOCAL_MACHINE /\
  fst (RegOpenKeyEx (win32_of_registry registry_example) HKEY_LOCAL_MACHINE
         (c_str (ToWinWide (win32_of_registry registry_example) "Software\Missing"))
         KEY_ENUMERATE_SUB_KEYS) <> ERROR_SUCCESS /\
  result (GetRegistrySubKeys 1 (win32_of_registry registry_example) "HKEY_LOCAL_MACHINE"
            "Software\Missing") None = Returns [].
Proof.
  assert (Hopen : fst (RegOpenKeyEx (win32_of_registry registry_example) HKEY_LOCAL_MACHINE
         (c_str (ToWinWide (win32_of_registry registry_example) "Software\Missing"))
         KEY_ENUMERATE_SUB_KEYS) <> ERROR_SUCCESS) by (vm_compute; discriminate).
  split; [reflexivity |]. split; [exact Hopen |].
  exact (GetRegistrySubKeys_unopened_key_is_empty (win32_of_registry registry_example)
           "HKEY_LOCAL_MACHINE" "Software\Missing" HKEY_LOCAL_MACHINE 1 None eq_refl Hopen).
Defined.

Lemma enumerate_subkeys_outcomes (os : Win32) (rootKey subKey : string) (hKey : HKEY) :
  forall fuel index name len names s,
    (exists out, result (enumerate_subkeys fuel os rootKey subKey hKey index name len names) s
                 = Returns out) \/
    result (enumerate_subkeys fuel os rootKey subKey hKey index name len names) s
      = Throws (system_error (GetLastError os) (subkeys_error_message rootKey subKey)) \/
    result (enumerate_subkeys fuel os rootKey subKey hKey index name len names) s
      = OutOfFuel.
Proof.
  induction fuel as [|fuel IH]; intros index name len names s; [right; right; reflexivity |].
  unfold result. rewrite enumerate_subkeys_S.
  destruct (RegEnumKeyEx os hKey index name len) as [[status name'] len'].
  destruct (negb (status =? ERROR_SUCCESS) && negb (status =? ERROR_NO_MORE_ITEMS));
    [right; left; reflexivity |].
  cbv zeta. destruct (status =? ERROR_SUCCESS); [apply IH |].
  left. eexists. reflexivity.
Qed.

Lemma GetRegistryRootKey_outcomes (rootKey : string) (s : sink) :
  (exists root, result (GetRegistryRootKey rootKey) s = Returns root) \/
  result (GetRegistryRootKey rootKey) s = Throws invalid_root_key.
Proof.
  unfold result, GetRegistryRootKey.
  repeat match goal with
         | |- context [String.eqb rootKey ?n] =>
             destruct (String.eqb rootKey n); [left; eexists; reflexivity |]
         end.
  right. reflexivity.
Qed.

(** The result of [GetRegistrySubKeys], with the logging put aside. *)
Lemma GetRegistrySubKeys_result (fuel : nat) (os : Win32) (rootKey subKey : string)
    (s : sink) :
  result (GetRegistrySubKeys fuel os rootKey subKey) s =
  match result (GetRegistryRootKey rootKey) None with
  | Returns root =>
      if negb (fst (RegOpenKeyEx os root (c_str (ToWinWide os subKey))
                      KEY_ENUMERATE_SUB_KEYS) =? ERROR_SUCCESS)
      then Returns []
      else result (enumerate_subkeys fuel os rootKey subKey
                     (snd (RegOpenKeyEx os root (c_str (ToWinWide os subKey))
                             KEY_ENUMERATE_SUB_KEYS))
                     0 (zero_wstring MAX_PATH) MAX_PATH []) None
  | Throws e => Throws e
  | NullDeref => NullDeref
  | OutOfFuel => OutOfFuel
  | BufferOverrun => BufferOverrun
  end.
Proof.
  unfold result at 1, GetRegistrySubKeys. unfold bind at 1.
  destruct (log_if_present_returns lvl_trace
              ("Getting subkey names for registry key and subkey: " +:+ rootKey +:+
               ", " +:+ subKey) s) as (s1 & -> & _).
  unfold bind at 1. rewrite GetRegistryRootKey_pure.
  rewrite (GetRegistryRootKey_sink_independent rootKey s1 None).
  destruct (result (GetRegistryRootKey rootKey) None) as [root | e | | |];
    try reflexivity.
  destruct (RegOpenKeyEx os root (c_str (ToWinWide os subKey)) KEY_ENUMERATE_SUB_KEYS)
    as [status hKey]. cbn [fst snd].
  destruct (negb (status =? ERROR_SUCCESS)).
  - run. now destruct s1.
  - now rewrite (enumerate_subkeys_pure os rootKey subKey hKey fuel _ _ _ _ s1 None).
Qed.

(** X3.  [GetRegistrySubKeys] never dereferences the logger unchecked, and
    the only exceptions it throws are the [invalid_argument] built with
    "Invalid registry key given." and the [system_error] built with the code
    of [GetLastError()] and the message "Failed to get the subkeys of the
    Registry key: ", the root key name, a backslash and the subkey. *)
Theorem GetRegistrySubKeys_outcomes (fuel : nat) (os : Win32) (rootKey subKey : string)
    (s : sink) :
  (exists out, result (GetRegistrySubKeys fuel os rootKey subKey) s = Returns out) \/
  result (GetRegistrySubKeys fuel os rootKey subKey) s =
    Throws (invalid_argument "Invalid registry key given.") \/
  result (GetRegistrySubKeys fuel os rootKey subKey) s =
    Throws (system_error (GetLastError os)
              ("Failed to get the subkeys of the Registry key: " +:+ rootKey +:+ "\" +:+
               subKey)) \/
  result (GetRegistrySubKeys fuel os rootKey subKey) s = OutOfFuel.
Proof.
  rewrite GetRegistrySubKeys_result.
  destruct (GetRegistryRootKey_outcomes rootKey None) as [[root ->] | ->];
    [| right; left; reflexivity].
  destruct (negb (fst (RegOpenKeyEx os root (c_str (ToWinWide os subKey))
                         KEY_ENUMERATE_SUB_KEYS) =? ERROR_SUCCESS));
    [left; exists []; reflexivity |].
  destruct (enumerate_subkeys_outcomes os rootKey subKey
              (snd (RegOpenKeyEx os root (c_str (ToWinWide os subKey))
                      KEY_ENUMERATE_SUB_KEYS))
              fuel 0 (zero_wstring MAX_PATH) MAX_PATH [] None)
    as [Hout | [Hthrow | Hfuel]]; auto.
Qed.

(** X5.  When the lookup under the 32-bit view succeeds, [RegKeyStringValue]
    returns the text that lookup stored, with or without a sink, and the
    64-bit view plays no part. *)
Theorem RegKeyStringValue_first_view_wins (os : Win32) (rootKey subkey value : string)
    (hKey : HKEY) (s : sink) :
  result (GetRegistryRootKey rootKey) s = Returns hKey ->
  status_of (first_lookup os hKey subkey value) = ERROR_SUCCESS ->
  result (RegKeyStringValue os rootKey subkey value) s =
  Returns (FromWinWide os (c_str (buffer_of (first_lookup os hKey subkey value)))).
Proof.
  intros Hroot Hfirst. destruct s as [l|].
  - rewrite (RegKeyStringValue_with_sink os rootKey subkey value hKey l Hroot).
    now rewrite Hfirst.
  - rewrite (RegKeyStringValue_without_sink os rootKey subkey value hKey Hroot).
    now rewrite Hfirst.
Qed.

Lemma RegKeyStringValue_first_view_wins_witness :
  result (GetRegistryRootKey "HKEY_LOCAL_MACHINE") None = Returns HKEY_LOCAL_MACHINE /\
  status_of (first_lookup (win32_of_registry registry_both_views) HKEY_LOCAL_MACHINE
               "Software\Bethesda\Skyrim" "Installed Path") = ERROR_SUCCESS /\
  result (RegKeyStringValue (win32_of_registry registry_both_views) "HKEY_LOCAL_MACHINE"
            "Software\Bethesda\Skyrim" "Installed Path") None =
  Returns (FromWinWide (win32_of_registry registry_both_views)
             (c_str (buffer_of (first_lookup (win32_of_registry registry_both_views)
                                  HKEY_LOCAL_MACHINE "Software\Bethesda\Skyrim"
                                  "Installed Path")))).
Proof.
  split; [reflexivity |]. split; [reflexivity |].
  exact (RegKeyStringValue_first_view_wins (win32_of_registry registry_both_views)
           "HKEY_LOCAL_MACHINE" "Software\Bethesda\Skyrim" "Installed Path"
           HKEY_LOCAL_MACHINE None eq_refl eq_refl).
Defined.

Example RegKeyStringValue_both_views :
  result (RegKeyStringValue (win32_of_registry registry_both_views) "HKEY_LOCAL_MACHINE"
            "Software\Bethesda\Skyrim" "Installed Path") None = Returns "C:\Games\Skyrim".
Proof. reflexivity. Qed.

(** ** The marker parser *)

(** X7.  The bounds of the decoding loop: it ends normally exactly on an even
    number of bytes, with half as many units; on an odd number its last
    [at(i + 1)] is out of range. *)
Theorem decode_content_succeeds_iff_even (bytes : list Z) :
  ((exists content, decode_content bytes = inr content) <->
   Z.even (Z.of_nat (length bytes)) = true) /\
  (forall content, decode_content bytes = inr content ->
     length bytes = (2 * length content)%nat).
Proof.
  assert (Hlen : forall bs content, decode_content bs = inr content ->
                 length bs = (2 * length content)%nat).
  { fix IH 1. intros [|b0 [|b1 rest]] content Hd.
    - injection Hd as <-. reflexivity.
    - discriminate.
    - rewrite decode_content_pair in Hd.
      destruct (decode_content rest) as [e | c] eqn:E; [discriminate |].
      injection Hd as <-. simpl. rewrite (IH rest c E). lia. }
  split; [| apply Hlen].
  split.
  - intros [content Hd]. rewrite (Hlen _ _ Hd), Nat2Z.inj_mul. apply Z.even_mul.
  - intros He.
    destruct (decode_content_even (length bytes / 2) bytes) as (content & Hd & _).
    + apply Z.even_spec in He. destruct He as [k Hk].
      pose proof (Nat.div_mod_eq (length bytes) 2).
      pose proof (Nat.mod_upper_bound (length bytes) 2 ltac:(lia)). lia.
    + now exists content.
Qed.

(** X8.  The parser reads the units between the header and the last unit and
    nothing else: for a file made of any 8 octets, an even number of octets
    [body] and any 2 octets, its outcome is the one the conversions of the
    units decoded from [body] decide, whatever the 8 and the 2 octets are:
    the root joined with those units when they convert. *)
Theorem FindXbox_reads_between_header_and_last_unit `{PathOps} (char_is_signed : bool)
    (disk : Disk) (root : path) (header body last : list Z) (s : sink) :
  marker_read disk root (header ++ body ++ last) ->
  length header = 8%nat -> length last = 2%nat ->
  Z.even (Z.of_nat (length body)) = true ->
  exists units,
    decode_content (map (char_of_octet char_is_signed) body) = inr units /\
    result (FindXboxGamingRootPath char_is_signed disk root) s =
    conversion_outcome (attached s) root units /\
    (forall converted,
       convert_u16string units = inr converted ->
       (s <> None -> exists text, u8string_checked converted = inr text) ->
       result (FindXboxGamingRootPath char_is_signed disk root) s =
       Returns (Some (root </> converted))).
Proof.
  intros Hread Hh Hl Hb.
  destruct (decode_content_even 4 (map (char_of_octet char_is_signed) header)
              ltac:(rewrite length_map; lia)) as (ch & Ech & Lch).
  destruct (decode_content_even 1 (map (char_of_octet char_is_signed) last)
              ltac:(rewrite length_map; lia)) as (cl & Ecl & Lcl).
  destruct (decode_content_even (length body / 2) (map (char_of_octet char_is_signed) body))
    as (units & Eu & Lu).
  { rewrite length_map. apply Z.even_spec in Hb. destruct Hb as [k Hk].
    pose proof (Nat.div_mod_eq (length body) 2).
    pose proof (Nat.mod_upper_bound (length body) 2 ltac:(lia)). lia. }
  exists units. split; [exact Eu |].
  assert (Hconv : forall converted,
            convert_u16string units = inr converted ->
            (s <> None -> exists text, u8string_checked converted = inr text) ->
            conversion_outcome (attached s) root units =
            Returns (Some (root </> converted))).
  { intros converted Hc Hlog. unfold conversion_outcome. rewrite Hc.
    destruct s as [l|]; [| reflexivity]. cbn [attached].
    destruct (Hlog ltac:(discriminate)) as [text ->]. reflexivity. }
  cut (result (FindXboxGamingRootPath char_is_signed disk root) s =
       conversion_outcome (attached s) root units).
  { intros ->. split; [reflexivity | exact Hconv]. }
  clear Hconv.
  destruct cl as [|t [|? ?]]; try discriminate.
  assert (Hall : decode_content
                   (map (char_of_octet char_is_signed) (header ++ body ++ last)) =
                 inr (ch ++ units ++ [t])).
  { rewrite !map_app. apply decode_content_app; [exact Ech |].
    apply decode_content_app; assumption. }
  unfold result. rewrite (FindXbox_after_read _ _ _ _ _ Hread).
  destruct (parse_marker_even root (gamingRootFilePath_of root)
              (map (char_of_octet char_is_signed) (header ++ body ++ last)) s)
    as (content & E & _ & R).
  { rewrite length_map, !length_app, Hh, Hl.
    replace (Z.of_nat (8 + (length body + 2)))
      with (Z.of_nat (length body) + 2 * 5) by lia.
    rewrite Z.even_add_mul_2. exact Hb. }
  unfold result in R. rewrite R. rewrite Hall in E. injection E as <-.
  rewrite relative_path_units_spec by exact Lch.
  rewrite !length_app, Lch. simpl length.
  destruct (Z.ltb_spec (Z.of_nat (4 + (length units + 1))) 5); [lia | reflexivity].
Qed.

Lemma FindXbox_reads_between_header_and_last_unit_witness :
  marker_read
    (disk_with_file marker_path (ReadToEnd ([0; 0; 0; 0; 0; 0; 0; 0] ++ [71; 0] ++ [255; 255])))
    drive_root ([0; 0; 0; 0; 0; 0; 0; 0] ++ [71; 0] ++ [255; 255]) /\
  exists units,
    decode_content (map (char_of_octet true) [71; 0]) = inr units /\
    result (FindXboxGamingRootPath true
              (disk_with_file marker_path
                 (ReadToEnd ([0; 0; 0; 0; 0; 0; 0; 0] ++ [71; 0] ++ [255; 255])))
              drive_root) None =
    conversion_outcome (attached None) drive_root units /\
    (forall converted,
       convert_u16string units = inr converted ->
       (@None (list (level * string)) <> None ->
        exists text, u8string_checked converted = inr text) ->
       result (FindXboxGamingRootPath true
                 (disk_with_file marker_path
                    (ReadToEnd ([0; 0; 0; 0; 0; 0; 0; 0] ++ [71; 0] ++ [255; 255])))
                 drive_root) None =
       Returns (Some (drive_root </> converted))).
Proof.
  assert (Hread : marker_read
    (disk_with_file marker_path (ReadToEnd ([0; 0; 0; 0; 0; 0; 0; 0] ++ [71; 0] ++ [255; 255])))
    drive_root ([0; 0; 0; 0; 0; 0; 0; 0] ++ [71; 0] ++ [255; 255])) by (split; reflexivity).
  split; [exact Hread |].
  exact (FindXbox_reads_between_header_and_last_unit true _ drive_root
           [0; 0; 0; 0; 0; 0; 0; 0] [71; 0] [255; 255] None Hread eq_refl eq_refl eq_refl).
Defined.

Lemma FindXbox_roundtrip_witness :
  marker_read
    (disk_with_file marker_path
       (ReadToEnd (marker_octets GAMING_ROOT_HEADER [71; 97; 109; 101; 115])))
    drive_root (marker_octets GAMING_ROOT_HEADER [71; 97; 109; 101; 115]) /\
  length GAMING_ROOT_HEADER = 8%nat /\
  Forall is_unit [71; 97; 109; 101; 115] /\
  Forall (survives true) [71; 97; 109; 101; 115] /\
  convert_u16string [71; 97; 109; 101; 115] = inr (u8path "Games") /\
  u8string_checked (u8path "Games") = inr "Games" /\
  result (FindXboxGamingRootPath true
            (disk_with_file marker_path
               (ReadToEnd (marker_octets GAMING_ROOT_HEADER [71; 97; 109; 101; 115])))
            drive_root) (Some []) =
  Returns (Some (drive_root </> u8path "Games")).
Proof.
  assert (Hread : marker_read
    (disk_with_file marker_path
       (ReadToEnd (marker_octets GAMING_ROOT_HEADER [71; 97; 109; 101; 115])))
    drive_root (marker_octets GAMING_ROOT_HEADER [71; 97; 109; 101; 115]))
    by (split; reflexivity).
  assert (Hu : Forall is_unit [71; 97; 109; 101; 115])
    by (repeat constructor; unfold is_unit; lia).
  assert (Hs : Forall (survives true) [71; 97; 109; 101; 115])
    by (repeat constructor; right; left; reflexivity).
  split; [exact Hread |]. split; [reflexivity |]. split; [exact Hu |]. split; [exact Hs |].
  split; [reflexivity |]. split; [reflexivity |].
  exact (FindXbox_roundtrip true _ drive_root (u8path "Games") GAMING_ROOT_HEADER
           [71; 97; 109; 101; 115] (Some []) Hread eq_refl Hu Hs eq_refl
           (fun _ => ex_intro _ "Games" eq_refl)).
Defined.

Lemma FindXbox_not_regular_witness :
  is_regular_file (disk_with_file marker_path (ReadToEnd [82]))
    (gamingRootFilePath_of (u8path "/mnt/e")) = inr false /\
  FindXboxGamingRootPath true (disk_with_file marker_path (ReadToEnd [82]))
    (u8path "/mnt/e") (Some []) = (Returns None, Some []).
Proof.
  split; [reflexivity |].
  exact (FindXbox_not_regular true (disk_with_file marker_path (ReadToEnd [82]))
           (u8path "/mnt/e") (Some []) eq_refl).
Defined.

Lemma FindXbox_caught_witness :
  is_regular_file disk_not_ready (gamingRootFilePath_of drive_root) =
    inl (filesystem_error "filesystem error: status: Input/output error") /\
  result (FindXboxGamingRootPath true disk_not_ready drive_root) None = Returns None.
Proof.
  split; [reflexivity |].
  exact (FindXbox_caught true disk_not_ready drive_root None
           (filesystem_error "filesystem error: status: Input/output error")
           (or_introl eq_refl)).
Defined.

Lemma FindXbox_odd_with_sink_witness :
  marker_read (disk_with_file marker_path (ReadToEnd [82; 71; 66])) drive_root [82; 71; 66] /\
  Z.odd (Z.of_nat (length [82; 71; 66])) = true /\
  result (FindXboxGamingRootPath true (disk_with_file marker_path (ReadToEnd [82; 71; 66]))
            drive_root) (Some []) =
  Throws (runtime_error
            ("Found a non-even number of bytes in the file at " +:+ dq +:+
             u8string (drive_root </> u8path ".GamingRoot") +:+ dq)).
Proof.
  assert (Hread : marker_read (disk_with_file marker_path (ReadToEnd [82; 71; 66]))
                    drive_root [82; 71; 66]) by (split; reflexivity).
  split; [exact Hread |]. split; [reflexivity |].
  exact (FindXbox_odd_with_sink true _ drive_root [82; 71; 66] [] Hread eq_refl).
Defined.

Lemma FindXbox_even_sink_independent_witness :
  marker_read
    (disk_with_file marker_path
       (ReadToEnd (marker_octets GAMING_ROOT_HEADER [71; 97; 109; 101; 115])))
    drive_root (marker_octets GAMING_ROOT_HEADER [71; 97; 109; 101; 115]) /\
  Z.even (Z.of_nat (length (marker_octets GAMING_ROOT_HEADER [71; 97; 109; 101; 115]))) =
    true /\
  decoded_relative_path true (marker_octets GAMING_ROOT_HEADER [71; 97; 109; 101; 115]) =
    inr [71; 97; 109; 101; 115] /\
  (forall converted, convert_u16string [71; 97; 109; 101; 115] = inr converted ->
     exists text, u8string_checked converted = inr text) /\
  result (FindXboxGamingRootPath true
            (disk_with_file marker_path
               (ReadToEnd (marker_octets GAMING_ROOT_HEADER [71; 97; 109; 101; 115])))
            drive_root) None =
  result (FindXboxGamingRootPath true
            (disk_with_file marker_path
               (ReadToEnd (marker_octets GAMING_ROOT_HEADER [71; 97; 109; 101; 115])))
            drive_root) (Some []).
Proof.
  assert (Hread : marker_read
    (disk_with_file marker_path
       (ReadToEnd (marker_octets GAMING_ROOT_HEADER [71; 97; 109; 101; 115])))
    drive_root (marker_octets GAMING_ROOT_HEADER [71; 97; 109; 101; 115]))
    by (split; reflexivity).
  assert (Hlog : forall converted : @path posix_paths,
            convert_u16string [71; 97; 109; 101; 115] = inr converted ->
            exists text, u8string_checked converted = inr text)
    by (intros converted _; exists converted; reflexivity).
  split; [exact Hread |]. split; [reflexivity |]. split; [reflexivity |].
  split; [exact Hlog |].
  exact (FindXbox_even_sink_independent true _ drive_root
           (marker_octets GAMING_ROOT_HEADER [71; 97; 109; 101; 115])
           [71; 97; 109; 101; 115] None (Some []) Hread eq_refl eq_refl Hlog).
Defined.

(** X13.  The unit decoded from the octets [lo], [hi] of a file is the
    little-endian value [lo + 256 * hi] where [char] is unsigned or [lo] is
    below 128; where [char] is signed and [lo] is 128 or more it is
    [65280 + lo], whatever [hi] is. *)
Theorem decoded_unit_of_two_octets (char_is_signed : bool) (lo hi : Z) :
  0 <= lo < 256 -> 0 <= hi < 256 ->
  (char_is_signed = false \/ lo < 128 ->
   char16_value (char_of_octet char_is_signed lo) (char_of_octet char_is_signed hi) =
   lo + 256 * hi) /\
  (char_is_signed = true -> 128 <= lo ->
   char16_value (char_of_octet char_is_signed lo) (char_of_octet char_is_signed hi) =
   65280 + lo).
Proof.
  intros Hlo Hhi. rewrite (char16_value_of_octets char_is_signed lo hi Hlo Hhi).
  unfold unit_decoded. split.
  - intros [-> | Hsmall]; [reflexivity |].
    destruct (Z.leb_spec 128 lo); [lia |]. now rewrite andb_false_r.
  - intros -> Hbig. destruct (Z.leb_spec 128 lo); [reflexivity | lia].
Qed.

Lemma decoded_unit_of_two_octets_witness :
  0 <= 233 < 256 /\ 0 <= 1 < 256 /\
  char16_value (char_of_octet false 233) (char_of_octet false 1) = 233 + 256 * 1 /\
  char16_value (char_of_octet true 233) (char_of_octet true 1) = 65280 + 233.
Proof.
  split; [lia |]. split; [lia |]. split.
  - apply (proj1 (decoded_unit_of_two_octets false 233 1 ltac:(lia) ltac:(lia))).
    left. reflexivity.
  - apply (proj2 (decoded_unit_of_two_octets true 233 1 ltac:(lia) ltac:(lia)));
      [reflexivity | lia].
Defined.

(** ** GetDriveRootPaths *)

Lemma split_drive_strings_run (w rest current : list Z) :
  zero_free w ->
  split_drive_strings (w ++ rest) current = split_drive_strings rest (current ++ w).
Proof.
  intros Hw. revert current. induction Hw as [|u w Hu _ IH]; intros current.
  - now rewrite app_nil_r.
  - simpl. apply Z.eqb_neq in Hu. rewrite Hu, IH, <- app_assoc. reflexivity.
Qed.

(** Each root closed by a zero unit is returned, in order; units after the
    last zero unit are dropped. *)
Lemma split_drive_strings_roots (roots : list (list Z)) (tail : list Z) :
  Forall zero_free roots -> zero_free tail ->
  split_drive_strings (drive_strings roots ++ tail) [] = roots.
Proof.
  intros Hroots Htail. induction Hroots as [|r roots Hr _ IH].
  - simpl. rewrite <- (app_nil_r tail), split_drive_strings_run by exact Htail.
    reflexivity.
  - cbn [drive_strings]. rewrite <- !app_assoc.
    rewrite split_drive_strings_run by exact Hr.
    simpl. now rewrite IH.
Qed.

Lemma resize_buffer_length (n : nat) (buffer : list Z) :
  length (resize_buffer n buffer) = n.
Proof.
  unfold resize_buffer. rewrite length_app, length_take, length_replicate. lia.
Qed.

Lemma resize_buffer_prefix (n size : nat) (written : list Z) :
  (n <= size)%nat -> (n <= length written)%nat ->
  resize_buffer n (resize_buffer size written) = take n written.
Proof.
  intros Hsize Hwritten. unfold resize_buffer at 1.
  rewrite resize_buffer_length.
  replace (n - size)%nat with 0%nat by lia. simpl. rewrite app_nil_r.
  unfold resize_buffer. rewrite take_app_le by (rewrite length_take; lia).
  rewrite take_take. f_equal. lia.
Qed.

(** X14.  When the system stores the drive strings (each root followed by a
    zero unit) and reports their length, [GetDriveRootPaths] returns exactly
    those roots, in order; units stored after the last zero unit are not
    returned as a path. *)
Theorem GetDriveRootPaths_win32_returns_the_roots `{PathOps} (vol : Win32Volumes)
    (roots : list (list Z)) (tail written : list Z) (s : sink) :
  0 < fst (GetLogicalDriveStrings vol 0 []) < 2 ^ 32 - 1 ->
  GetLogicalDriveStrings vol (fst (GetLogicalDriveStrings vol 0 []) + 1)
    (replicate (Z.to_nat (fst (GetLogicalDriveStrings vol 0 []) + 1)) 0) =
    (Z.of_nat (length (drive_strings roots ++ tail)), written) ->
  Z.of_nat (length (drive_strings roots ++ tail)) <= fst (GetLogicalDriveStrings vol 0 []) + 1 ->
  take (length (drive_strings roots ++ tail)) written = drive_strings roots ++ tail ->
  Forall zero_free roots -> zero_free tail ->
  GetDriveRootPaths_win32 vol s = (Returns (map path_of_u16string roots), s).
Proof.
  intros Hmax Hcall Hfits Hwritten Hroots Htail. unfold GetDriveRootPaths_win32.
  destruct (Z.eqb_spec (fst (GetLogicalDriveStrings vol 0 [])) 0) as [E | _]; [lia |].
  rewrite Z.mod_small by lia. rewrite Hcall.
  rewrite Nat2Z.id, resize_buffer_prefix, Hwritten, split_drive_strings_roots;
    [reflexivity | assumption | assumption | lia |].
  rewrite <- Hwritten at 1. rewrite length_take. lia.
Qed.

Lemma GetDriveRootPaths_win32_returns_the_roots_witness :
  0 < fst (GetLogicalDriveStrings (volumes_of [[67; 58; 92]; [68; 58; 92]]) 0 []) < 2 ^ 32 - 1 /\
  Forall zero_free [[67; 58; 92]; [68; 58; 92]] /\
  GetDriveRootPaths_win32 (volumes_of [[67; 58; 92]; [68; 58; 92]]) None =
  (Returns (map path_of_u16string [[67; 58; 92]; [68; 58; 92]]), None).
Proof.
  assert (Hroots : Forall zero_free [[67; 58; 92]; [68; 58; 92]])
    by (repeat constructor; discriminate).
  split; [vm_compute; split; reflexivity |]. split; [exact Hroots |].
  apply (GetDriveRootPaths_win32_returns_the_roots (volumes_of [[67; 58; 92]; [68; 58; 92]])
           [[67; 58; 92]; [68; 58; 92]] [] [67; 58; 92; 0; 68; 58; 92; 0; 0; 0] None).
  - vm_compute. split; reflexivity.
  - reflexivity.
  - vm_compute. discriminate.
  - reflexivity.
  - exact Hroots.
  - constructor.
Defined.

(** X15.  The two failures of the listing are told apart: a size query that
    answers 0 is thrown as [system_error], while a second call that answers 0
    gives the empty sequence and no error. *)
Theorem GetDriveRootPaths_win32_zero_answers `{PathOps} (vol : Win32Volumes) (s : sink) :
  (fst (GetLogicalDriveStrings vol 0 []) = 0 ->
   GetDriveRootPaths_win32 vol s =
   (Throws (system_error (GetLastError_volumes vol) drive_strings_error_message), s)) /\
  (fst (GetLogicalDriveStrings vol 0 []) <> 0 ->
   fst (GetLogicalDriveStrings vol ((fst (GetLogicalDriveStrings vol 0 []) + 1) mod 2 ^ 32)
          (replicate (Z.to_nat (fst (GetLogicalDriveStrings vol 0 []) + 1)) 0)) = 0 ->
   GetDriveRootPaths_win32 vol s = (Returns [], s)).
Proof.
  unfold GetDriveRootPaths_win32. split.
  - intros ->. reflexivity.
  - intros Hmax Hsecond. apply Z.eqb_neq in Hmax. rewrite Hmax.
    destruct (GetLogicalDriveStrings vol _ (replicate _ 0)) as [stringsLength written].
    simpl in Hsecond. subst stringsLength. reflexivity.
Qed.

(** ** messagesAsMarkdown *)

Lemma string_app_assoc (a b c : string) : (a +:+ b) +:+ c = a +:+ (b +:+ c).
Proof.
  induction a as [|x a IH]; [reflexivity |].
  change (String x ((a +:+ b) +:+ c) = String x (a +:+ (b +:+ c))). now f_equal.
Qed.

Lemma string_app_empty_r (a : string) : a +:+ "" = a.
Proof.
  induction a as [|x a IH]; [reflexivity |].
  change (String x (a +:+ "") = String x a). now f_equal.
Qed.

Lemma append_message_item (content : string) (message : SimpleMessage) :
  append_message content message = content +:+ markdown_item message.
Proof.
  unfold append_message, markdown_item.
  destruct (type message); cbv zeta; now rewrite !string_app_assoc.
Qed.

Lemma fold_append_message (messages : list SimpleMessage) :
  forall content,
    fold_left append_message messages content = content +:+ markdown_items messages.
Proof.
  induction messages as [|m rest IH]; intros content; simpl.
  - now rewrite string_app_empty_r.
  - now rewrite IH, append_message_item, string_app_assoc.
Qed.

Lemma markdown_items_app (a b : list SimpleMessage) :
  markdown_items (a ++ b) = markdown_items a +:+ markdown_items b.
Proof.
  induction a as [|m a IH]; simpl; [reflexivity |]. now rewrite IH, string_app_assoc.
Qed.

(** X16.  For a non-empty sequence the text is the heading and a blank line
    followed by one list item per message, in order; so appending messages to
    a non-empty sequence appends their items to the text. *)
Theorem messagesAsMarkdown_is_heading_then_items (m : SimpleMessage)
    (rest more : list SimpleMessage) :
  messagesAsMarkdown (m :: rest) =
  "## Messages" +:+ lf +:+ lf +:+ markdown_items (m :: rest) /\
  messagesAsMarkdown ((m :: rest) ++ more) =
  messagesAsMarkdown (m :: rest) +:+ markdown_items more.
Proof.
  assert (Hform : forall ms, messagesAsMarkdown (m :: ms) =
                    "## Messages" +:+ lf +:+ lf +:+ markdown_items (m :: ms)).
  { intros ms. unfold messagesAsMarkdown. rewrite fold_append_message.
    now rewrite !string_app_assoc. }
  split; [apply Hform |].
  change ((m :: rest) ++ more) with (m :: (rest ++ more)).
  rewrite !Hform, !string_app_assoc.
  change (m :: rest ++ more) with ((m :: rest) ++ more).
  now rewrite markdown_items_app.
Qed.

Lemma count_lf_app (a b : string) : count_lf (a +:+ b) = (count_lf a + count_lf b)%nat.
Proof. induction a as [|x a IH]; simpl; [reflexivity | rewrite IH; lia]. Qed.

Lemma count_lf_item (m : SimpleMessage) :
  count_lf (markdown_item m) = S (count_lf (text m)).
Proof.
  unfold markdown_item. rewrite !count_lf_app.
  destruct (type m); simpl; lia.
Qed.

(** X17.  The text of a non-empty sequence has two line feeds for the
    heading and, for each message, one plus those of the message's own text:
    with texts free of line feeds, one line per message. *)
Theorem messagesAsMarkdown_line_count (m : SimpleMessage) (rest : list SimpleMessage) :
  count_lf (messagesAsMarkdown (m :: rest)) =
  (2 + length (m :: rest) + sum_list_with (fun x => count_lf (text x)) (m :: rest))%nat.
Proof.
  unfold messagesAsMarkdown. rewrite fold_append_message, !count_lf_app.
  change (count_lf "## Messages") with 0%nat. change (count_lf lf) with 1%nat.
  generalize (m :: rest). intros ms.
  induction ms as [|x ms IH]; [reflexivity |].
  cbn [markdown_items length sum_list_with].
  rewrite count_lf_app, count_lf_item. lia.
Qed.

(** X18.  The text is empty exactly when there is no message. *)
Theorem messagesAsMarkdown_empty_iff (messages : list SimpleMessage) :
  messagesAsMarkdown messages = "" <-> messages = [].
Proof.
  split; [| intros ->; reflexivity].
  destruct messages as [|m rest]; [reflexivity |].
  unfold messagesAsMarkdown. rewrite fold_append_message. discriminate.
Qed.

(** ** crcToString *)

(** X19.  Two values have the same text exactly when they are the same
    32-bit value. *)
Theorem crcToString_injective (a b : Z) :
  crcToString a = crcToString b <-> a mod 2 ^ 32 = b mod 2 ^ 32.
Proof.
  unfold crcToString. split; [| intros ->; reflexivity].
  intros Heq.
  pose proof (Z.mod_pos_bound a (2 ^ 32) ltac:(lia)) as Ha.
  pose proof (Z.mod_pos_bound b (2 ^ 32) ltac:(lia)) as Hb.
  destruct (format_08X_spec _ Ha) as [_ Hva].
  destruct (format_08X_spec _ Hb) as [_ Hvb].
  rewrite Heq, Hvb in Hva. now injection Hva.
Qed.

(** ** getExecutableDirectory *)

(** X20.  [getExecutableDirectory] throws exactly when the system call that
    names the executable fails ([readlink] answering a negative count,
    [GetModuleFileName] answering 0), and its result is the same from any
    two sinks. *)
Theorem getExecutableDirectory_fails_iff_the_system_call_fails `{PathOps}
    (sys : Posix) (os : Win32) (s s' : sink) :
  ((exists e, result (getExecutableDirectory_posix sys) s = Throws e) <->
   fst (readlink sys "/proc/self/exe" PATH_MAX) < 0) /\
  result (getExecutableDirectory_posix sys) s =
  result (getExecutableDirectory_posix sys) s' /\
  ((exists e, result (getExecutableDirectory_win32 os) s = Throws e) <->
   fst (GetModuleFileName os (zero_wstring MAX_PATH) MAX_PATH) = 0) /\
  result (getExecutableDirectory_win32 os) s =
  result (getExecutableDirectory_win32 os) s'.
Proof.
  assert (Hwin : forall s0,
    result (getExecutableDirectory_win32 os) s0 =
    if fst (GetModuleFileName os (zero_wstring MAX_PATH) MAX_PATH) =? 0
    then Throws (system_error (GetLastError os) exe_error_message)
    else Returns (parent_path (path_of_u16string
                    (snd (GetModuleFileName os (zero_wstring MAX_PATH) MAX_PATH))))).
  { intros s0. unfold result, getExecutableDirectory_win32.
    destruct (GetModuleFileName os (zero_wstring MAX_PATH) MAX_PATH) as [stored buffer].
    simpl. destruct (stored =? 0); [| reflexivity]. run. now destruct s0. }
  rewrite !getExecutableDirectory_posix_outcome, !Hwin.
  split; [| split; [reflexivity | split; [| reflexivity]]].
  - destruct (Z.ltb_spec (fst (readlink sys "/proc/self/exe" PATH_MAX)) 0).
    + split; [auto | intros _; eexists; reflexivity].
    + split; [intros [e He]; discriminate | lia].
  - destruct (Z.eqb_spec (fst (GetModuleFileName os (zero_wstring MAX_PATH) MAX_PATH)) 0).
    + split; [auto | intros _; eexists; reflexivity].
    + split; [intros [e He]; discriminate | contradiction].
Qed.
